(** * unify_api_v1.models.operation : the Operation resource

    A shallow embedding of [src/python/src/unify_api_v1/models/operation.py].

    Python objects are references: an [Operation] is a location in a heap of
    objects, and every method is a state transformer over a [World] that holds
    the heap, the wall clock, and a log of the blocking calls ([sleep]) and
    network calls ([client.get]) performed so far.  Exceptions are threaded
    through a small state-and-error monad.  The [while] loop of [wait] is run
    with fuel; what is left when the fuel is spent is reported as [Running],
    so that both termination and non-termination can be stated. *)

From Stdlib Require Import String ZArith QArith List Bool Lia Lqa DecimalString.
Import ListNotations.

Open Scope string_scope.
Open Scope list_scope.
Open Scope Z_scope.

(** ** Python values used by the module *)

(** [str(n)] for a Python [int]. *)
Definition str_int (n : Z) : string := NilZero.string_of_int (Z.to_int n).

(** [str(x)] for a value that is [None] or an [int]
    (the documented type of [timeout_seconds]). *)
Definition str_optional_int (x : option Z) : string :=
  match x with
  | None => "None"
  | Some n => str_int n
  end.

(** [x in l] for a list of strings. *)
Definition str_in (x : string) (l : list string) : bool :=
  existsb (String.eqb x) l.

(** [a < b] on clock readings and durations.  The readings of [time.time()]
    are Python floats; they are taken as the rationals they denote, and the
    rounding of the subtraction [now() - started] is left out. *)
Definition Qltb (a b : Q) : bool := negb (Qle_bool b a).

(** Exceptions that can leave the methods of the module.  [TimeoutError] is
    raised by [wait] itself.  [ValueError] comes from [time.sleep] (negative
    length) and from the enum reflection [OperationStateProto.Name] (no name
    for the value).  [TransportError] and [DecodeError] are the opaque failures
    of the collaborators: the HTTP client and [BaseResource.from_json].
    [InvalidReference] stands for reading a location that holds no object; it
    has no Python counterpart, since Python references are never dangling. *)
Inductive exn : Type :=
| TimeoutError (msg : string)
| ValueError (msg : string)
| TransportError (e : string)
| DecodeError (e : string)
| InvalidReference.

(** Blocking and network calls, as recorded in the log of the world. *)
Inductive event : Type :=
| EvSleep (seconds : Z)
| EvGet (path : option string).

Definition is_sleep (e : event) : bool :=
  match e with EvSleep _ => true | EvGet _ => false end.

Definition is_get (e : event) : bool :=
  match e with EvGet _ => true | EvSleep _ => false end.

(** ** Collaborators and objects *)

(** The transport client.  [client_get c k path] is what
    [c.get(path).json()] evaluates to when it is the [k]-th request sent
    since the world began: a decoded body or a transport failure. *)
Record Client (Json : Type) : Type :=
  { client_get : nat -> option string -> string + Json }.
Arguments client_get {Json} _ _ _.

(** The protobuf message [Operation], the [data] of the resource, over the
    type of its [status] field. *)
Record OperationProto (StatusProto : Type) : Type := {
  proto_type : string;
  proto_description : string;
  proto_status : StatusProto
}.
Arguments proto_type {StatusProto} _.
Arguments proto_description {StatusProto} _.
Arguments proto_status {StatusProto} _.

(** The attributes of an [Operation] object, set by the constructor of
    [BaseResource]. *)
Record Object (Json StatusProto : Type) : Type := {
  client : Client Json;
  api_path : option string;
  data : OperationProto StatusProto
}.
Arguments client {Json StatusProto} _.
Arguments api_path {Json StatusProto} _.
Arguments data {Json StatusProto} _.

(** What the module imports from files that are not part of the sources.
    - [status_state]: the [state] field (an enum code) of the status message
      of [unify_api_v1_proto.operation_pb2];
    - [OperationStateProto_Name]: [OperationState.Name] of
      [unify_api_v1_proto.common_pb2], the symbolic name of an enum code,
      [None] where the reflection raises [ValueError];
    - [BaseResource_from_json c body path]:
      [BaseResource.from_json(c, body, OperationProto, path)] with
      [cls = Operation], of [unify_api_v1.models.base_resource]: the
      attributes of the resource it builds, or the failure of the decoding. *)
Class Collaborators (Json StatusProto : Type) : Type := {
  status_state : StatusProto -> Z;
  OperationStateProto_Name : Z -> option string;
  BaseResource_from_json :
    Client Json -> Json -> option string -> string + Object Json StatusProto
}.

(** An [Operation] value is a reference to an object of the heap. *)
Definition Operation : Type := nat.

(** ** The world *)

Record World (Json StatusProto : Type) : Type := {
  heap : list (Object Json StatusProto);  (* the objects allocated so far *)
  clock : nat -> Q;      (* the reading of the k-th call of time.time() *)
  now_count : nat;       (* calls of time.time() so far *)
  get_count : nat;       (* requests sent so far *)
  log : list event       (* sleeps and requests, oldest first *)
}.
Arguments heap {Json StatusProto} _.
Arguments clock {Json StatusProto} _ _.
Arguments now_count {Json StatusProto} _.
Arguments get_count {Json StatusProto} _.
Arguments log {Json StatusProto} _.

(** How a call of [wait] stands: it has returned, it has raised, or its loop
    is still running on [op] when the fuel is spent. *)
Inductive outcome (Json StatusProto : Type) : Type :=
| Returned (op : Operation) (w : World Json StatusProto)
| Raised (e : exn) (w : World Json StatusProto)
| Running (op : Operation) (w : World Json StatusProto).
Arguments Returned {Json StatusProto} _ _.
Arguments Raised {Json StatusProto} _ _.
Arguments Running {Json StatusProto} _ _.

(** What one run of the body of the [while] of [wait] leaves. *)
Inductive body_result : Type :=
| Return (op : Operation)       (* return op *)
| Continue (op : Operation).    (* op = op.poll(), back to the test *)

(** The keyword arguments that [wait] accepts, each given or left out. *)
Record wait_options : Type := {
  opt_poll_interval_seconds : option Z;
  opt_timeout_seconds : option (option Z)
}.

Section OperationModel.

Context {Json StatusProto : Type} {collab : Collaborators Json StatusProto}.

Local Abbreviation World := (World Json StatusProto).
Local Abbreviation Object := (Object Json StatusProto).
Local Abbreviation outcome := (outcome Json StatusProto).

(** ** The monad of effects *)

Definition M (A : Type) : Type := World -> (exn + A) * World.

Definition ret {A : Type} (a : A) : M A := fun w => (inr a, w).

Definition raise {A : Type} (e : exn) : M A := fun w => (inl e, w).

Definition bind {A B : Type} (m : M A) (k : A -> M B) : M B :=
  fun w =>
    match m w with
    | (inr a, w') => k a w'
    | (inl e, w') => (inl e, w')
    end.

Local Notation "x <- m ;; k" := (bind m (fun x => k))
  (at level 61, m at next level, right associativity).
Local Notation "m ;;; k" := (bind m (fun _ => k))
  (at level 61, right associativity).

(** The changes a call makes to the world. *)
Definition tick (w : World) : World :=
  {| heap := heap w; clock := clock w; now_count := S (now_count w);
     get_count := get_count w; log := log w |}.

Definition record_sleep (seconds : Z) (w : World) : World :=
  {| heap := heap w; clock := clock w; now_count := now_count w;
     get_count := get_count w; log := log w ++ [EvSleep seconds] |}.

Definition record_get (path : option string) (w : World) : World :=
  {| heap := heap w; clock := clock w; now_count := now_count w;
     get_count := S (get_count w); log := log w ++ [EvGet path] |}.

Definition store (o : Object) (w : World) : World :=
  {| heap := heap w ++ [o]; clock := clock w; now_count := now_count w;
     get_count := get_count w; log := log w |}.

(** [time.time()], imported as [now]. *)
Definition now : M Q :=
  fun w => (inr (clock w (now_count w)), tick w).

(** [time.sleep(seconds)]. *)
Definition sleep (seconds : Z) : M unit :=
  fun w =>
    if seconds <? 0
    then (inl (ValueError "sleep length must be non-negative"), w)
    else (inr tt, record_sleep seconds w).

(** [c.get(path).json()]. *)
Definition http_get_json (c : Client Json) (path : option string) : M Json :=
  fun w =>
    match client_get c (get_count w) path with
    | inr body => (inr body, record_get path w)
    | inl e => (inl (TransportError e), record_get path w)
    end.

(** Object creation: a fresh location at the end of the heap. *)
Definition alloc (o : Object) : M Operation :=
  fun w => (inr (length (heap w)), store o w).

(** Attribute access through a reference. *)
Definition load (self : Operation) : M Object :=
  fun w =>
    match nth_error (heap w) self with
    | Some o => (inr o, w)
    | None => (inl InvalidReference, w)
    end.

(** ** class Operation(BaseResource) *)

(** [Operation.from_json(client, resource_json, api_path=None)]. *)
Definition from_json (c : Client Json) (resource_json : Json)
    (path : option string) : M Operation :=
  match BaseResource_from_json c resource_json path with
  | inr o => alloc o
  | inl e => raise (DecodeError e)
  end.

(** Property [type]. *)
Definition type (self : Operation) : M string :=
  o <- load self ;; ret (proto_type (data o)).

(** Property [description]. *)
Definition description (self : Operation) : M string :=
  o <- load self ;; ret (proto_description (data o)).

(** Property [status]. *)
Definition status (self : Operation) : M StatusProto :=
  o <- load self ;; ret (proto_status (data o)).

(** The [ValueError] of the enum reflection. *)
Definition no_name_error (code : Z) : exn :=
  ValueError ("Enum OperationState has no name defined for value "
                ++ str_int code).

(** Property [state]: [OperationStateProto.Name(self.status.state)]. *)
Definition state (self : Operation) : M string :=
  st <- status self ;;
  match OperationStateProto_Name (status_state st) with
  | Some name => ret name
  | None => raise (no_name_error (status_state st))
  end.

(** Attribute [api_path]. *)
Definition get_api_path (self : Operation) : M (option string) :=
  o <- load self ;; ret (api_path o).

(** [poll]. *)
Definition poll (self : Operation) : M Operation :=
  o <- load self ;;
  op_json <- http_get_json (client o) (api_path o) ;;
  from_json (client o) op_json None.

(** The two literal lists of [wait]. *)
Definition unresolved_states : list string := ["PENDING"; "RUNNING"].
Definition resolved_states : list string := ["CANCELED"; "SUCCEEDED"; "FAILED"].

(** The test of the [while] of [wait]:
    [timeout_seconds is None or now() - started < timeout_seconds]. *)
Definition wait_test (timeout_seconds : option Z) (started : Q) : M bool :=
  match timeout_seconds with
  | None => ret true
  | Some t => current <- now ;; ret (Qltb (current - started)%Q (inject_Z t))
  end.

(** The body of the [while] of [wait]. *)
Definition wait_body (poll_interval_seconds : Z) (op : Operation)
    : M body_result :=
  s <- state op ;;
  if str_in s unresolved_states then
    sleep poll_interval_seconds ;;;
    op' <- poll op ;; ret (Continue op')
  else
    s' <- state op ;;
    if str_in s' resolved_states then ret (Return op)
    else op' <- poll op ;; ret (Continue op').

(** The message of the [TimeoutError] of [wait]. *)
Definition timeout_message (timeout_seconds : option Z) : string :=
  "Waiting for operation took longer than "
    ++ str_optional_int timeout_seconds ++ " seconds.".

(** The [while] of [wait] followed by the final [raise], run for at most
    [fuel] tests. *)
Fixpoint wait_loop (fuel : nat) (poll_interval_seconds : Z)
    (timeout_seconds : option Z) (started : Q) (op : Operation) (w : World)
    : outcome :=
  match fuel with
  | O => Running op w
  | S fuel' =>
      match wait_test timeout_seconds started w with
      | (inl e, w1) => Raised e w1
      | (inr false, w1) =>
          Raised (TimeoutError (timeout_message timeout_seconds)) w1
      | (inr true, w1) =>
          match wait_body poll_interval_seconds op w1 with
          | (inl e, w2) => Raised e w2
          | (inr (Return r), w2) => Returned r w2
          | (inr (Continue op'), w2) =>
              wait_loop fuel' poll_interval_seconds timeout_seconds started op' w2
          end
      end
  end.

(** [wait(self, poll_interval_seconds=3, timeout_seconds=None)]. *)
Definition wait (fuel : nat) (self : Operation) (poll_interval_seconds : Z)
    (timeout_seconds : option Z) (w : World) : outcome :=
  match now w with
  | (inr started, w0) =>
      wait_loop fuel poll_interval_seconds timeout_seconds started self w0
  | (inl e, w0) => Raised e w0
  end.

(** [self.wait] applied to the keyword dictionary [options]: a keyword left
    out takes its default. *)
Definition wait_kw (fuel : nat) (self : Operation) (options : wait_options)
    (w : World) : outcome :=
  wait fuel self
    (match opt_poll_interval_seconds options with Some i => i | None => 3 end)
    (match opt_timeout_seconds options with Some t => t | None => None end)
    w.

(** [apply_options(self, asynchronous=False, options...)]. *)
Definition apply_options (fuel : nat) (self : Operation) (asynchronous : bool)
    (options : wait_options) (w : World) : outcome :=
  if asynchronous then Returned self w
  else wait_kw fuel self options w.

(** [succeeded]. *)
Definition succeeded (self : Operation) : M bool :=
  s <- state self ;; ret (String.eqb s "SUCCEEDED").

(** ** The server as the loop sees it *)

(** The world a call leaves. *)
Definition world_of (r : outcome) : World :=
  match r with
  | Returned _ w => w
  | Raised _ w => w
  | Running _ w => w
  end.

(** The symbolic state of an object, when its code has a name. *)
Definition object_state (o : Object) : option string :=
  OperationStateProto_Name (status_state (proto_status (data o))).

(** The object that a poll of [o] builds when it is the [k]-th request. *)
Definition poll_object (k : nat) (o : Object) : exn + Object :=
  match client_get (client o) k (api_path o) with
  | inl e => inl (TransportError e)
  | inr body =>
      match BaseResource_from_json (client o) body None with
      | inl e => inl (DecodeError e)
      | inr o' => inr o'
      end
  end.

(** The [n]-th snapshot of the sequence that successive polls produce from
    [o], the first of them being the [k]-th request. *)
Fixpoint snapshot (n k : nat) (o : Object) : exn + Object :=
  match n with
  | O => inr o
  | S n' =>
      match poll_object k o with
      | inr o' => snapshot n' (S k) o'
      | inl e => inl e
      end
  end.

(** A snapshot was delivered and its state has a name that is not resolved:
    [PENDING], [RUNNING] or a name outside the two lists. *)
Definition not_resolved (r : exn + Object) : bool :=
  match r with
  | inr o =>
      match object_state o with
      | Some s => negb (str_in s resolved_states)
      | None => false
      end
  | inl _ => false
  end.

(** A snapshot was delivered and its state has a name outside the two lists. *)
Definition unlisted (r : exn + Object) : bool :=
  match r with
  | inr o =>
      match object_state o with
      | Some s => negb (str_in s (unresolved_states ++ resolved_states))
      | None => false
      end
  | inl _ => false
  end.

(** The loop goes through a snapshot and polls again: the state is not
    resolved and, where it makes the loop sleep, the sleep is accepted. *)
Definition passes (poll_interval_seconds : Z) (r : exn + Object) : bool :=
  match r with
  | inr o =>
      match object_state o with
      | Some s =>
          if str_in s unresolved_states then 0 <=? poll_interval_seconds
          else negb (str_in s resolved_states)
      | None => false
      end
  | inl _ => false
  end.

(** The sleep of a turn of the loop on [o]: one on [PENDING] and [RUNNING],
    none otherwise. *)
Definition sleep_events (poll_interval_seconds : Z) (o : Object) : list event :=
  match object_state o with
  | Some s =>
      if str_in s unresolved_states then [EvSleep poll_interval_seconds]
      else []
  | None => []
  end.

(** The sleeps and requests of the first [n] turns of the loop of [wait] on
    the snapshots that start at [o]. *)
Fixpoint wait_trace (poll_interval_seconds : Z) (n k : nat) (o : Object)
    : list event :=
  match n with
  | O => []
  | S n' =>
      sleep_events poll_interval_seconds o
        ++ EvGet (api_path o)
        :: match poll_object k o with
           | inr o' => wait_trace poll_interval_seconds n' (S k) o'
           | inl _ => []
           end
  end.

(** The elapsed time that the [j]-th test of the loop computes (counted from
    0), the first test reading the clock for the [c]-th time. *)
Definition elapsed (clk : nat -> Q) (started : Q) (c j : nat) : Q :=
  (clk (j + c)%nat - started)%Q.

(** The first [n] tests of the loop find the elapsed time below the timeout
    [t]. *)
Definition in_time (clk : nat -> Q) (t : Z) (started : Q) (c n : nat) : bool :=
  forallb (fun j => Qltb (elapsed clk started c j) (inject_Z t)) (seq 0 n).

(** The loop goes through each of the first [n] snapshots and polls again. *)
Definition passes_all (poll_interval_seconds : Z) (n k : nat) (o : Object)
    : bool :=
  forallb (fun j => passes poll_interval_seconds (snapshot j k o)) (seq 0 n).

(** Each of the first [n] snapshots was delivered with a state that is not
    resolved. *)
Definition none_resolved (n k : nat) (o : Object) : bool :=
  forallb (fun j => not_resolved (snapshot j k o)) (seq 0 n).

(** Each of the first [n] snapshots was delivered with a state outside the
    two lists. *)
Definition all_unlisted (n k : nat) (o : Object) : bool :=
  forallb (fun j => unlisted (snapshot j k o)) (seq 0 n).

(** The timeout [t] strikes at the [m]-th test (counted from 0), computed
    with the comparisons of the code: every earlier test found the elapsed
    time below [t] and was followed by a turn of the loop that went through a
    snapshot that is not resolved and polled again, and the [m]-th test finds
    the elapsed time at or above [t].  The [m]-th snapshot, in hand at that
    test, only has to be there; its state is not looked at. *)
Definition times_out_at (clk : nat -> Q) (poll_interval_seconds t : Z)
    (started : Q) (c k : nat) (o : Object) (m : nat) : bool :=
  in_time clk t started c m
  && passes_all poll_interval_seconds m k o
  && match snapshot m k o with inr _ => true | inl _ => false end
  && negb (Qltb (elapsed clk started c m) (inject_Z t)).

(** A turn of the loop on a snapshot polls again: the snapshot was delivered,
    its state has a name that is none of the three resolved names, and the
    poll interval is not negative if the state is one that makes the loop
    sleep.  Stated on the names themselves, not with the tests of the code. *)
Definition polls_again (poll_interval_seconds : Z) (r : exn + Object) : Prop :=
  exists o s,
    r = inr o
    /\ object_state o = Some s
    /\ ~ In s ["CANCELED"; "SUCCEEDED"; "FAILED"]%string
    /\ (In s ["PENDING"; "RUNNING"]%string -> 0 <= poll_interval_seconds).

(** The timeout [t] strikes at the [m]-th test of a call of [wait] made in
    the world [w] on the object [o], stated on the rationals themselves:
    every earlier test found the elapsed time below [t] and its turn polled
    again, the [m]-th snapshot was delivered, and the [m]-th test finds the
    elapsed time at or above [t]. *)
Definition timeout_strikes (w : World) (poll_interval_seconds t : Z)
    (o : Object) (m : nat) : Prop :=
  (forall j, (j < m)%nat ->
     (elapsed (clock w) (clock w (now_count w)) (S (now_count w)) j
      < inject_Z t)%Q
     /\ polls_again poll_interval_seconds (snapshot j (get_count w) o))
  /\ (exists o_m, snapshot m (get_count w) o = inr o_m)
  /\ (inject_Z t
      <= elapsed (clock w) (clock w (now_count w)) (S (now_count w)) m)%Q.

(** The timeout strikes at the [m]-th test while no resolved state has been
    obtained: the snapshot in hand at that test is itself not resolved. *)
Definition strikes_unresolved (w : World) (poll_interval_seconds t : Z)
    (o : Object) (m : nat) : Prop :=
  timeout_strikes w poll_interval_seconds t o m
  /\ exists o_m s,
       snapshot m (get_count w) o = inr o_m
       /\ object_state o_m = Some s
       /\ ~ In s ["CANCELED"; "SUCCEEDED"; "FAILED"]%string.

(** The world after the test of the loop, after the sleep that the state of
    [o] asks for, and after a poll of [o] that delivered [o']. *)
Definition tested (timeout_seconds : option Z) (w : World) : World :=
  match timeout_seconds with
  | Some _ => tick w
  | None => w
  end.

Definition slept (poll_interval_seconds : Z) (o : Object) (w : World) : World :=
  match object_state o with
  | Some s =>
      if str_in s unresolved_states then record_sleep poll_interval_seconds w
      else w
  | None => w
  end.

Definition polled (o o' : Object) (w : World) : World :=
  store o' (record_get (api_path o) w).

(** The values a caller can read from an operation: the properties [type],
    [description], [status] and [state], and the attribute [api_path]. *)
Definition observable (self : Operation) (w : World) :=
  (fst (type self w), fst (description self w), fst (status self w),
   fst (state self w), fst (get_api_path self w)).

End OperationModel.

(** ** A concrete server, for the examples

    Bodies carry a path and a state code; the decoding keeps the path it is
    given and falls back on the path of the body; the enumeration has the
    five names that [wait] lists and one more. *)

Record demo_body : Type := { body_path : string; body_state : Z }.

Definition demo_Name (code : Z) : option string :=
  match code with
  | 0 => Some "PENDING"
  | 1 => Some "RUNNING"
  | 2 => Some "CANCELED"
  | 3 => Some "SUCCEEDED"
  | 4 => Some "FAILED"
  | 5 => Some "UNKNOWN"
  | _ => None
  end.

Definition demo_from_json (c : Client demo_body) (body : demo_body)
    (path : option string) : string + Object demo_body Z :=
  inr {| client := c;
         api_path := match path with
                     | Some p => Some p
                     | None => Some (body_path body)
                     end;
         data := {| proto_type := "demo";
                    proto_description := "a demo operation";
                    proto_status := body_state body |} |}.

#[global] Instance demo_collab : Collaborators demo_body Z := {|
  status_state := fun code => code;
  OperationStateProto_Name := demo_Name;
  BaseResource_from_json := demo_from_json
|}.

(** A body reporting the state [code] under the path [operations/1]. *)
Definition demo_answer (code : Z) : string + demo_body :=
  inr {| body_path := "operations/1"; body_state := code |}.

(** A client that answers its requests with the states of [codes], in
    order, whatever the path, and with the state [rest] ever after. *)
Definition scripted (codes : list Z) (rest : Z) : Client demo_body :=
  {| client_get := fun k _ => demo_answer (nth k codes rest) |}.

(** An operation of the client [c], in the state [code], with the path
    [path]. *)
Definition demo_object_at (path : string) (c : Client demo_body) (code : Z)
    : Object demo_body Z :=
  {| client := c;
     api_path := Some path;
     data := {| proto_type := "demo";
                proto_description := "a demo operation";
                proto_status := code |} |}.

(** An operation fetched under the path [jobs/1]. *)
Definition demo_object : Client demo_body -> Z -> Object demo_body Z :=
  demo_object_at "jobs/1".

(** A clock whose successive readings are [step] apart. *)
Definition steady_clock (step : Q) : nat -> Q :=
  fun k => (inject_Z (Z.of_nat k) * step)%Q.

(** A world that holds one object, at location 0, and has seen no call. *)
Definition demo_world (o : Object demo_body Z) (clk : nat -> Q)
    : World demo_body Z :=
  {| heap := [o]; clock := clk; now_count := 0; get_count := 0; log := [] |}.

(** The example of the specification: the receiver is [PENDING] and the
    polls report [PENDING], [RUNNING], [SUCCEEDED]. *)
Definition pending_world : World demo_body Z :=
  demo_world (demo_object (scripted [0; 1; 3] 3) 0) (steady_clock 1).

(** A receiver that is [FAILED] from the start. *)
Definition failed_world : World demo_body Z :=
  demo_world (demo_object (scripted [] 4) 4) (steady_clock 1).

(** A receiver that is [SUCCEEDED] from the start. *)
Definition succeeded_world : World demo_body Z :=
  demo_world (demo_object (scripted [] 3) 3) (steady_clock 1).

(** A receiver in the sixth state, on a server that reports [SUCCEEDED]. *)
Definition unknown_then_succeeded_world : World demo_body Z :=
  demo_world (demo_object (scripted [] 3) 5) (steady_clock 1).

(** A receiver in the sixth state, on a server that stays in it. *)
Definition unknown_world : World demo_body Z :=
  demo_world (demo_object (scripted [] 5) 5) (steady_clock 1).

(** A receiver that stays [PENDING], under a clock of the given readings. *)
Definition stuck_world (clk : nat -> Q) : World demo_body Z :=
  demo_world (demo_object (scripted [] 0) 0) clk.

(** A log made of turns of the loop of [wait] with the poll interval [i]:
    each turn is a request, or a sleep of [i] seconds followed at once by a
    request. *)
Fixpoint well_paced (i : Z) (tr : list event) : bool :=
  match tr with
  | [] => true
  | EvGet _ :: tr' => well_paced i tr'
  | EvSleep s :: tr' =>
      match tr' with
      | EvGet _ :: tr'' => (s =? i) && well_paced i tr''
      | _ => false
      end
  end.

(** A client that answers its first requests with the states of [codes], in
    order, and fails on every later request. *)
Definition failing_after (codes : list Z) : Client demo_body :=
  {| client_get := fun k _ =>
       if (k <? length codes)%nat then demo_answer (nth k codes 0)
       else inl "connection reset" |}.

(** A [PENDING] receiver whose server answers [RUNNING] once and then
    fails. *)
Definition failing_world : World demo_body Z :=
  demo_world (demo_object (failing_after [1]) 0) (steady_clock 1).

(** A receiver whose state code, 9, has no name in the enumeration. *)
Definition nameless_world : World demo_body Z :=
  demo_world (demo_object (scripted [] 3) 9) (steady_clock 1).

(** The world that [wait] leaves when it has returned in the example of the
    specification. *)
Definition waited_world : World demo_body Z :=
  world_of (wait 4 0%nat 0 None pending_world).

(** The keywords [poll_interval_seconds=0], the timeout being left out. *)
Definition quick_options : wait_options :=
  {| opt_poll_interval_seconds := Some 0; opt_timeout_seconds := None |}.

(** A [PENDING] receiver whose server answers [SUCCEEDED] at once. *)
Definition resolving_world : World demo_body Z :=
  demo_world (demo_object (scripted [] 3) 0) (steady_clock 1).

(** A receiver that reads [FAILED] while the server reports [RUNNING]. *)
Definition failed_but_running_world : World demo_body Z :=
  demo_world (demo_object (scripted [] 1) 4) (steady_clock 1).

(** * Properties *)

Section OperationFacts.

Context {Json StatusProto : Type} {collab : Collaborators Json StatusProto}.

Local Abbreviation World := (World Json StatusProto).
Local Abbreviation Object := (Object Json StatusProto).
Local Abbreviation outcome := (outcome Json StatusProto).

Implicit Types (w : World) (o : Object) (self op : Operation).

(** ** Reading through a reference *)

Lemma load_found w self o :
  nth_error (heap w) self = Some o -> load self w = (inr o, w).
Proof. intros H. unfold load. now rewrite H. Qed.

Lemma state_found w self o :
  nth_error (heap w) self = Some o ->
  state self w =
    (match object_state o with
     | Some s => inr s
     | None => inl (no_name_error (status_state (proto_status (data o))))
     end, w).
Proof.
  intros H. unfold state, status, bind, object_state.
  rewrite (load_found _ _ _ H). cbn.
  now destruct (OperationStateProto_Name _).
Qed.

Lemma poll_found w self o :
  nth_error (heap w) self = Some o ->
  poll self w =
    match poll_object (get_count w) o with
    | inr o' => (inr (length (heap w)), store o' (record_get (api_path o) w))
    | inl e => (inl e, record_get (api_path o) w)
    end.
Proof.
  intros H. unfold poll, bind, poll_object, http_get_json, from_json.
  rewrite (load_found _ _ _ H).
  destruct (client_get _ _ _) as [e|body]; [reflexivity|].
  now destruct (BaseResource_from_json _ _ _).
Qed.

(** ** The heap only grows *)

Lemma store_old w o l o' :
  nth_error (heap w) l = Some o -> nth_error (heap (store o' w)) l = Some o.
Proof.
  intros H. cbn. rewrite nth_error_app1; [exact H|].
  apply nth_error_Some. congruence.
Qed.

Lemma store_new w o' :
  nth_error (heap (store o' w)) (length (heap w)) = Some o'.
Proof. cbn. rewrite nth_error_app2, Nat.sub_diag by lia. reflexivity. Qed.

(** ** One turn of the loop *)

Lemma wait_body_found w op o i :
  nth_error (heap w) op = Some o ->
  wait_body i op w =
    match object_state o with
    | None => (inl (no_name_error (status_state (proto_status (data o)))), w)
    | Some s =>
        if str_in s unresolved_states then
          if i <? 0
          then (inl (ValueError "sleep length must be non-negative"), w)
          else
            match poll_object (get_count w) o with
            | inr o' =>
                (inr (Continue (length (heap w))), polled o o' (record_sleep i w))
            | inl e => (inl e, record_get (api_path o) (record_sleep i w))
            end
        else if str_in s resolved_states then (inr (Return op), w)
        else
          match poll_object (get_count w) o with
          | inr o' => (inr (Continue (length (heap w))), polled o o' w)
          | inl e => (inl e, record_get (api_path o) w)
          end
    end.
Proof.
  intros H. pose proof (state_found _ _ _ H) as Hs.
  unfold wait_body, bind.
  destruct (object_state o) as [s|]; rewrite Hs; [|reflexivity].
  destruct (str_in s unresolved_states).
  - unfold sleep. destruct (i <? 0); [reflexivity|].
    rewrite (poll_found (record_sleep i w) op o) by exact H. cbn.
    now destruct (poll_object _ _).
  - rewrite Hs. destruct (str_in s resolved_states); [reflexivity|].
    rewrite (poll_found _ _ _ H).
    now destruct (poll_object _ _).
Qed.

Lemma wait_test_eq w t started :
  wait_test t started w =
    (inr match t with
         | Some t' => Qltb (elapsed (clock w) started (now_count w) 0) (inject_Z t')
         | None => true
         end, tested t w).
Proof. destruct t; reflexivity. Qed.

Lemma heap_tested t w : heap (tested t w) = heap w.
Proof. now destruct t. Qed.

Lemma get_count_tested t w : get_count (tested t w) = get_count w.
Proof. now destruct t. Qed.

Lemma log_tested t w : log (tested t w) = log w.
Proof. now destruct t. Qed.

Lemma clock_tested t w : clock (tested t w) = clock w.
Proof. now destruct t. Qed.

Lemma now_count_tested t w :
  now_count (tested t w)
  = (match t with Some _ => 1 | None => 0 end + now_count w)%nat.
Proof. now destruct t. Qed.

Lemma wait_loop_S fuel i t started op o w :
  nth_error (heap w) op = Some o ->
  wait_loop (S fuel) i t started op w =
    if match t with
       | Some t' => Qltb (elapsed (clock w) started (now_count w) 0) (inject_Z t')
       | None => true
       end
    then
      match object_state o with
      | None =>
          Raised (no_name_error (status_state (proto_status (data o))))
                 (tested t w)
      | Some s =>
          if str_in s unresolved_states then
            if i <? 0
            then Raised (ValueError "sleep length must be non-negative")
                        (tested t w)
            else
              match poll_object (get_count w) o with
              | inr o' =>
                  wait_loop fuel i t started (length (heap w))
                            (polled o o' (record_sleep i (tested t w)))
              | inl e =>
                  Raised e (record_get (api_path o) (record_sleep i (tested t w)))
              end
          else if str_in s resolved_states then Returned op (tested t w)
          else
            match poll_object (get_count w) o with
            | inr o' =>
                wait_loop fuel i t started (length (heap w))
                          (polled o o' (tested t w))
            | inl e => Raised e (record_get (api_path o) (tested t w))
            end
      end
    else Raised (TimeoutError (timeout_message t)) (tested t w).
Proof.
  intros H. cbn [wait_loop]. rewrite wait_test_eq.
  destruct (match t with Some _ => _ | None => _ end); [|reflexivity].
  rewrite (wait_body_found (tested t w) op o i) by (now rewrite heap_tested).
  rewrite get_count_tested, heap_tested.
  destruct (object_state o) as [s|]; [|reflexivity].
  destruct (str_in s unresolved_states).
  - destruct (i <? 0); [reflexivity|]. now destruct (poll_object _ _).
  - destruct (str_in s resolved_states); [reflexivity|].
    now destruct (poll_object _ _).
Qed.

(** A turn that goes through a snapshot that is not resolved. *)
Lemma wait_loop_pass fuel i t started op o o' w :
  nth_error (heap w) op = Some o ->
  match t with
  | Some t' => Qltb (elapsed (clock w) started (now_count w) 0) (inject_Z t')
  | None => true
  end = true ->
  passes i (inr o) = true ->
  poll_object (get_count w) o = inr o' ->
  wait_loop (S fuel) i t started op w =
    wait_loop fuel i t started (length (heap w))
              (polled o o' (slept i o (tested t w))).
Proof.
  intros H Ht Hp Hq. rewrite (wait_loop_S _ _ _ _ _ _ _ H), Ht, Hq.
  unfold passes in Hp. unfold slept.
  destruct (object_state o) as [s|]; [|discriminate].
  destruct (str_in s unresolved_states).
  - apply Z.leb_le in Hp. destruct (Z.ltb_spec i 0); [lia|reflexivity].
  - apply negb_true_iff in Hp. now rewrite Hp.
Qed.

(** ** Shifting the sequence of snapshots by one poll *)

Lemma forallb_seq_shift (f g : nat -> bool) n :
  (forall j, f (S j) = g j) ->
  forallb f (seq 0 (S n)) = f 0%nat && forallb g (seq 0 n).
Proof.
  intros Hfg. cbn. f_equal. rewrite <- seq_shift.
  induction (seq 0 n) as [|j l IH]; [reflexivity|].
  cbn. now rewrite Hfg, IH.
Qed.

Lemma forallb_seq_impl (f g : nat -> bool) n :
  (forall j, f j = true -> g j = true) ->
  forallb f (seq 0 n) = true -> forallb g (seq 0 n) = true.
Proof.
  intros Hfg H. apply forallb_forall. intros j Hj.
  apply Hfg. now apply (proj1 (forallb_forall _ _) H).
Qed.

Lemma snapshot_S n k o o' :
  poll_object k o = inr o' -> snapshot (S n) k o = snapshot n (S k) o'.
Proof. intros H. cbn. now rewrite H. Qed.

Lemma snapshot_S_delivered n k o o_n :
  snapshot (S n) k o = inr o_n ->
  exists o', poll_object k o = inr o' /\ snapshot n (S k) o' = inr o_n.
Proof.
  cbn. destruct (poll_object k o) as [e|o']; [discriminate|]. eauto.
Qed.

Lemma passes_all_S i n k o o' :
  poll_object k o = inr o' ->
  passes_all i (S n) k o = passes i (inr o) && passes_all i n (S k) o'.
Proof.
  intros H. unfold passes_all.
  apply forallb_seq_shift with (f := fun j => passes i (snapshot j k o)).
  intros j. now rewrite (snapshot_S _ _ _ _ H).
Qed.

Lemma all_unlisted_S n k o o' :
  poll_object k o = inr o' ->
  all_unlisted (S n) k o = unlisted (inr o) && all_unlisted n (S k) o'.
Proof.
  intros H. unfold all_unlisted.
  apply forallb_seq_shift with (f := fun j => unlisted (snapshot j k o)).
  intros j. now rewrite (snapshot_S _ _ _ _ H).
Qed.

Lemma in_time_S clk t started c n :
  in_time clk t started c (S n)
  = Qltb (elapsed clk started c 0) (inject_Z t) && in_time clk t started (S c) n.
Proof.
  unfold in_time.
  apply forallb_seq_shift
    with (f := fun j => Qltb (elapsed clk started c j) (inject_Z t)).
  intros j. unfold elapsed. now rewrite Nat.add_succ_r.
Qed.

Lemma unlisted_passes i r : unlisted r = true -> passes i r = true.
Proof.
  unfold unlisted, passes. destruct r as [e|o]; [easy|].
  destruct (object_state o) as [s|]; [|easy].
  unfold str_in. rewrite existsb_app. intros H.
  apply negb_true_iff, orb_false_iff in H. destruct H as [H1 H2].
  now rewrite H1, H2.
Qed.

Lemma not_resolved_passes i r :
  0 <= i -> not_resolved r = true -> passes i r = true.
Proof.
  unfold not_resolved, passes. intros Hi. destruct r as [e|o]; [easy|].
  destruct (object_state o) as [s|]; [|easy].
  intros H. destruct (str_in s unresolved_states); [|exact H].
  now apply Z.leb_le.
Qed.

(** ** The turns of the loop before the first resolved snapshot *)

Lemma slept_fields i o w :
  heap (slept i o w) = heap w /\ clock (slept i o w) = clock w
  /\ now_count (slept i o w) = now_count w
  /\ get_count (slept i o w) = get_count w
  /\ log (slept i o w) = log w ++ sleep_events i o.
Proof.
  unfold slept, sleep_events. destruct (object_state o) as [s|].
  - destruct (str_in s unresolved_states); cbn; now rewrite ?app_nil_r.
  - now rewrite app_nil_r.
Qed.

Lemma wait_trace_S i n k o :
  wait_trace i (S n) k o =
    sleep_events i o ++ EvGet (api_path o)
      :: match poll_object k o with
         | inr o' => wait_trace i n (S k) o'
         | inl _ => []
         end.
Proof. reflexivity. Qed.

Lemma wait_loop_prefix n :
  forall fuel i t started op o o_n w,
    nth_error (heap w) op = Some o ->
    passes_all i n (get_count w) o = true ->
    (forall t', t = Some t' ->
                in_time (clock w) t' started (now_count w) n = true) ->
    snapshot n (get_count w) o = inr o_n ->
    exists op_n w_n,
      wait_loop (n + fuel) i t started op w
      = wait_loop fuel i t started op_n w_n
      /\ nth_error (heap w_n) op_n = Some o_n
      /\ log w_n = log w ++ wait_trace i n (get_count w) o
      /\ get_count w_n = (n + get_count w)%nat
      /\ now_count w_n
         = (match t with Some _ => n | None => 0%nat end + now_count w)%nat
      /\ clock w_n = clock w
      /\ (forall l x, nth_error (heap w) l = Some x ->
                      nth_error (heap w_n) l = Some x)
      /\ (n = 0%nat -> op_n = op /\ w_n = w).
Proof.
  induction n as [|n IH]; intros fuel i t started op o o_n w H Hp Ht Hs.
  - cbn in Hs. injection Hs as <-. exists op, w. cbn [wait_trace].
    rewrite app_nil_r. repeat split; try easy. now destruct t.
  - destruct (snapshot_S_delivered _ _ _ _ Hs) as (o' & Hq & Hs').
    rewrite (passes_all_S _ _ _ _ _ Hq) in Hp.
    apply andb_true_iff in Hp. destruct Hp as [Hp0 Hp'].
    assert (Ht0 : match t with
                  | Some t' =>
                      Qltb (elapsed (clock w) started (now_count w) 0)
                           (inject_Z t')
                  | None => true
                  end = true).
    { destruct t as [t'|]; [|reflexivity].
      specialize (Ht t' eq_refl). rewrite in_time_S in Ht.
      now apply andb_true_iff in Ht. }
    cbn [Nat.add]. rewrite (wait_loop_pass _ _ _ _ _ _ _ _ H Ht0 Hp0 Hq).
    destruct (slept_fields i o (tested t w)) as (Eh & Ec & En & Eg & El).
    rewrite heap_tested in Eh. rewrite clock_tested in Ec.
    rewrite now_count_tested in En. rewrite get_count_tested in Eg.
    rewrite log_tested in El.
    set (w1 := polled o o' (slept i o (tested t w))).
    assert (Hh1 : heap w1 = heap w ++ [o']) by (unfold w1; cbn; now rewrite Eh).
    assert (Hg1 : get_count w1 = S (get_count w))
      by (unfold w1; cbn; now rewrite Eg).
    assert (Hc1 : clock w1 = clock w) by (unfold w1; cbn; exact Ec).
    assert (Hn1 : now_count w1
                  = (match t with Some _ => 1 | None => 0 end + now_count w)%nat)
      by (unfold w1; cbn; exact En).
    assert (Hl1 : log w1 = (log w ++ sleep_events i o) ++ [EvGet (api_path o)])
      by (unfold w1; cbn; now rewrite El).
    destruct (IH fuel i t started (length (heap w)) o' o_n w1)
      as (op_n & w_n & Hrun & Hop & Hlog & Hget & Hnow & Hclk & Hold & _).
    + rewrite Hh1, nth_error_app2, Nat.sub_diag by lia. reflexivity.
    + now rewrite Hg1.
    + intros t' ->. specialize (Ht t' eq_refl). rewrite in_time_S in Ht.
      apply andb_true_iff in Ht. now rewrite Hc1, Hn1.
    + now rewrite Hg1.
    + exists op_n, w_n. rewrite Hrun. repeat split; try easy.
      * rewrite Hlog, Hl1, Hg1, wait_trace_S, Hq.
        now rewrite <- !app_assoc.
      * rewrite Hget, Hg1. lia.
      * rewrite Hnow, Hn1. destruct t; lia.
      * congruence.
      * intros l x Hl. apply Hold. rewrite Hh1.
        rewrite nth_error_app1; [exact Hl|].
        apply nth_error_Some. congruence.
Qed.

(** The events of [n] turns: one request a turn, the last event being the
    request that delivered the [n]-th snapshot. *)
Lemma wait_trace_gets i n :
  forall k o o_n,
    snapshot n k o = inr o_n ->
    length (filter is_get (wait_trace i n k o)) = n.
Proof.
  induction n as [|n IH]; intros k o o_n Hs; [reflexivity|].
  destruct (snapshot_S_delivered _ _ _ _ Hs) as (o' & Hq & Hs').
  rewrite wait_trace_S, Hq, filter_app, length_app. cbn.
  rewrite (IH _ _ _ Hs'). unfold sleep_events.
  destruct (object_state o) as [s|]; [|reflexivity].
  now destruct (str_in s unresolved_states).
Qed.

Lemma wait_trace_last i n :
  forall k o o_n,
    snapshot (S n) k o = inr o_n ->
    exists l p, wait_trace i (S n) k o = l ++ [EvGet p].
Proof.
  induction n as [|n IH]; intros k o o_n Hs;
    destruct (snapshot_S_delivered _ _ _ _ Hs) as (o' & Hq & Hs');
    rewrite wait_trace_S, Hq.
  - exists (sleep_events i o), (api_path o). reflexivity.
  - destruct (IH _ _ _ Hs') as (l & p & ->).
    exists (sleep_events i o ++ EvGet (api_path o) :: l), p.
    now rewrite <- app_assoc.
Qed.

Lemma wait_trace_unlisted i n :
  forall k o o_n,
    snapshot n k o = inr o_n ->
    all_unlisted n k o = true ->
    filter is_sleep (wait_trace i n k o) = [].
Proof.
  induction n as [|n IH]; intros k o o_n Hs Hu; [reflexivity|].
  destruct (snapshot_S_delivered _ _ _ _ Hs) as (o' & Hq & Hs').
  rewrite (all_unlisted_S _ _ _ _ Hq) in Hu.
  apply andb_true_iff in Hu. destruct Hu as [Hu0 Hu'].
  rewrite wait_trace_S, Hq, filter_app. cbn.
  rewrite (IH _ _ _ Hs' Hu'), app_nil_r.
  unfold unlisted in Hu0. unfold sleep_events.
  destruct (object_state o) as [s|]; [|reflexivity].
  unfold str_in in Hu0. rewrite existsb_app in Hu0.
  apply negb_true_iff, orb_false_iff in Hu0. destruct Hu0 as [Hu0 _].
  unfold str_in. now rewrite Hu0.
Qed.

Lemma resolved_not_unresolved s :
  str_in s resolved_states = true -> str_in s unresolved_states = false.
Proof.
  unfold str_in. cbn. rewrite !orb_true_iff.
  intros [H|[H|[H|H]]]; try discriminate;
    apply String.eqb_eq in H; subst; reflexivity.
Qed.

Lemma wait_unfold fuel self i t w :
  wait fuel self i t w
  = wait_loop fuel i t (clock w (now_count w)) self (tick w).
Proof. reflexivity. Qed.

(** A turn on a resolved snapshot returns it and leaves the world as the
    test left it. *)
Lemma wait_loop_resolved fuel i t started op o s w :
  nth_error (heap w) op = Some o ->
  object_state o = Some s ->
  str_in s resolved_states = true ->
  match t with
  | Some t' => Qltb (elapsed (clock w) started (now_count w) 0) (inject_Z t')
  | None => true
  end = true ->
  wait_loop (S fuel) i t started op w = Returned op (tested t w).
Proof.
  intros H Hs Hr Ht.
  rewrite (wait_loop_S _ _ _ _ _ _ _ H), Ht, Hs.
  now rewrite (resolved_not_unresolved _ Hr), Hr.
Qed.

(** ** C1 *)

(** C1. Whenever the snapshots that successive polls deliver reach a resolved
    state ([CANCELED], [SUCCEEDED] or [FAILED]) for the first time at the
    [n]-th poll (the receiver being snapshot 0), [wait] with
    [timeout_seconds=None] and a poll interval that [sleep] accepts returns,
    given enough fuel, a reference to that [n]-th snapshot, whose state is
    that resolved state.  It has sent exactly [n] requests, and the last
    thing it did before returning was the request that delivered the
    snapshot: no sleep and no poll follows the observation. *)
Theorem wait_returns_first_resolved n self o o_n s w i :
  nth_error (heap w) self = Some o ->
  0 <= i ->
  none_resolved n (get_count w) o = true ->
  snapshot n (get_count w) o = inr o_n ->
  object_state o_n = Some s ->
  str_in s resolved_states = true ->
  forall fuel, (n < fuel)%nat ->
    exists r w',
      wait fuel self i None w = Returned r w'
      /\ nth_error (heap w') r = Some o_n
      /\ state r w' = (inr s, w')
      /\ log w' = log w ++ wait_trace i n (get_count w) o
      /\ length (filter is_get (wait_trace i n (get_count w) o)) = n
      /\ (n = 0%nat -> r = self /\ log w' = log w)
      /\ ((0 < n)%nat -> exists l p, log w' = l ++ [EvGet p]).
Proof.
  intros H Hi Hn Hs Hst Hr fuel Hfuel.
  assert (Hp : passes_all i n (get_count (tick w)) o = true).
  { revert Hn. apply forallb_seq_impl. intros j.
    now apply not_resolved_passes. }
  destruct (wait_loop_prefix n (fuel - n) i None (clock w (now_count w))
              self o o_n (tick w) H Hp)
    as (op_n & w_n & Hrun & Hop & Hlog & _ & _ & _ & _ & H0);
    [discriminate | exact Hs |].
  replace (n + (fuel - n))%nat with fuel in Hrun by lia.
  destruct (fuel - n)%nat as [|fuel'] eqn:E; [lia|].
  rewrite (wait_loop_resolved fuel' i None (clock w (now_count w)) op_n o_n s
             w_n Hop Hst Hr eq_refl) in Hrun.
  exists op_n, w_n. cbn [tested] in Hrun. rewrite wait_unfold, Hrun.
  split; [reflexivity|]. split; [exact Hop|].
  split; [now rewrite (state_found _ _ _ Hop), Hst|].
  split; [exact Hlog|].
  split; [exact (wait_trace_gets i n _ _ _ Hs)|].
  split.
  - intros ->. destruct (H0 eq_refl) as [-> ->]. now split.
  - intros Hpos. destruct n as [|n']; [lia|].
    destruct (wait_trace_last i n' _ _ _ Hs) as (l & p & Hl).
    exists (log w ++ l), p. cbn [tick get_count] in Hlog.
    rewrite Hlog. cbn [tick log]. rewrite Hl. now rewrite app_assoc.
Qed.

(** ** C2 and C3 *)

Lemma poll_object_error k o e :
  poll_object k o = inl e -> forall msg, e <> TimeoutError msg.
Proof.
  unfold poll_object. destruct (client_get _ _ _) as [x|body].
  - intros [= <-]. discriminate.
  - destruct (BaseResource_from_json _ _ _) as [x|o']; [|discriminate].
    intros [= <-]. discriminate.
Qed.

Lemma times_out_at_S clk i t started c k o o' m :
  poll_object k o = inr o' ->
  times_out_at clk i t started c k o (S m)
  = Qltb (elapsed clk started c 0) (inject_Z t)
    && passes i (inr o)
    && times_out_at clk i t started (S c) (S k) o' m.
Proof.
  intros H. unfold times_out_at.
  rewrite in_time_S, (passes_all_S _ _ _ _ _ H), (snapshot_S _ _ _ _ H).
  replace (elapsed clk started c (S m)) with (elapsed clk started (S c) m)
    by (unfold elapsed; now rewrite Nat.add_succ_r).
  destruct (Qltb (elapsed clk started c 0) (inject_Z t)),
    (passes i (inr o)), (in_time clk t started (S c) m),
    (passes_all i m (S k) o'); reflexivity.
Qed.

Lemma polled_new o o' w :
  nth_error (heap (polled o o' w)) (length (heap w)) = Some o'.
Proof. cbn. rewrite nth_error_app2, Nat.sub_diag by lia. reflexivity. Qed.

(** When the loop raises [TimeoutError], the message is the one built from
    the timeout, a timeout was given, and it struck at one of the tests. *)
Lemma wait_loop_TimeoutError fuel :
  forall i t started op o w msg w',
    nth_error (heap w) op = Some o ->
    wait_loop fuel i t started op w = Raised (TimeoutError msg) w' ->
    msg = timeout_message t
    /\ exists t' m,
         t = Some t'
         /\ times_out_at (clock w) i t' started (now_count w) (get_count w) o m
            = true.
Proof.
  induction fuel as [|fuel IH]; intros i t started op o w msg w' H Hrun;
    [discriminate|].
  rewrite (wait_loop_S _ _ _ _ _ _ _ H) in Hrun.
  destruct (match t with Some _ => _ | None => _ end) eqn:Ht.
  - assert (Hstep :
      forall o' w1,
        poll_object (get_count w) o = inr o' ->
        passes i (inr o) = true ->
        heap w1 = heap w -> clock w1 = clock w ->
        now_count w1 = now_count (tested t w) ->
        get_count w1 = get_count w ->
        wait_loop fuel i t started (length (heap w)) (polled o o' w1)
        = Raised (TimeoutError msg) w' ->
        msg = timeout_message t
        /\ exists t' m,
             t = Some t'
             /\ times_out_at (clock w) i t' started (now_count w)
                             (get_count w) o m = true).
    { intros o' w1 Hq Hp Eh Ec En Eg Hrec.
      destruct (IH i t started (length (heap w)) o' (polled o o' w1) msg w')
        as (Hmsg & t' & m & -> & Hm); [|exact Hrec|].
      - rewrite <- Eh. apply polled_new.
      - split; [exact Hmsg|]. exists t', (S m). split; [reflexivity|].
        rewrite (times_out_at_S _ _ _ _ _ _ _ _ _ Hq), Ht, Hp.
        cbn in Hm. cbn in En. now rewrite Ec, En, Eg in Hm. }
    destruct (object_state o) as [s|] eqn:Hs; [|discriminate].
    destruct (str_in s unresolved_states) eqn:Hu.
    + destruct (Z.ltb_spec i 0) as [Hi|Hi]; [discriminate|].
      destruct (poll_object (get_count w) o) as [e|o'] eqn:Hq.
      * injection Hrun as -> _. now destruct (poll_object_error _ _ _ Hq msg).
      * apply (Hstep o' (record_sleep i (tested t w)) eq_refl);
          try (cbn; now rewrite ?heap_tested, ?clock_tested, ?get_count_tested).
        unfold passes. rewrite Hs, Hu. now apply Z.leb_le.
    + destruct (str_in s resolved_states) eqn:Hr; [discriminate|].
      destruct (poll_object (get_count w) o) as [e|o'] eqn:Hq.
      * injection Hrun as -> _. now destruct (poll_object_error _ _ _ Hq msg).
      * apply (Hstep o' (tested t w) eq_refl);
          try (now rewrite ?heap_tested, ?clock_tested, ?get_count_tested).
        unfold passes. now rewrite Hs, Hu, Hr.
  - injection Hrun as <- _. split; [reflexivity|].
    destruct t as [t'|]; [|discriminate].
    exists t', 0%nat. split; [reflexivity|].
    unfold times_out_at. cbn. now rewrite Ht.
Qed.

(** When the timeout strikes at a test, the loop raises [TimeoutError]
    there, whatever fuel is left. *)
Lemma times_out_at_raises m i t' started op o w fuel :
  nth_error (heap w) op = Some o ->
  times_out_at (clock w) i t' started (now_count w) (get_count w) o m = true ->
  (m < fuel)%nat ->
  exists w',
    wait_loop fuel i (Some t') started op w
    = Raised (TimeoutError (timeout_message (Some t'))) w'.
Proof.
  intros H Hm Hfuel. unfold times_out_at in Hm.
  apply andb_true_iff in Hm. destruct Hm as [Hm Hlate].
  apply andb_true_iff in Hm. destruct Hm as [Hm Hdel].
  apply andb_true_iff in Hm. destruct Hm as [Hin Hp].
  destruct (snapshot m (get_count w) o) as [e|o_m] eqn:Hs; [discriminate|].
  destruct (wait_loop_prefix m (fuel - m) i (Some t') started op o o_m w H Hp)
    as (op_m & w_m & Hrun & Hop & _ & _ & Hnow & Hclk & _);
    [now intros ? [= <-] | exact Hs |].
  replace (m + (fuel - m))%nat with fuel in Hrun by lia.
  destruct (fuel - m)%nat as [|fuel'] eqn:E; [lia|].
  rewrite Hrun, (wait_loop_S _ _ _ _ _ _ _ Hop), Hclk, Hnow.
  apply negb_true_iff in Hlate. unfold elapsed in *. cbn [Nat.add].
  rewrite Hlate. eauto.
Qed.

Lemma Qltb_lt (a b : Q) : Qltb a b = true <-> (a < b)%Q.
Proof.
  unfold Qltb. rewrite negb_true_iff. split.
  - intros H. apply Qnot_le_lt. intros Hle.
    apply Qle_bool_iff in Hle. congruence.
  - intros Hlt. destruct (Qle_bool b a) eqn:E; [|reflexivity].
    apply Qle_bool_iff in E. exfalso. exact (Qlt_not_le _ _ Hlt E).
Qed.

Lemma Qltb_ge (a b : Q) : Qltb a b = false <-> (b <= a)%Q.
Proof.
  unfold Qltb. rewrite negb_false_iff. apply Qle_bool_iff.
Qed.

Lemma str_in_In (x : string) (l : list string) : str_in x l = true <-> In x l.
Proof.
  unfold str_in. rewrite existsb_exists. split.
  - intros (y & Hy & E). apply String.eqb_eq in E. now subst.
  - intros H. exists x. split; [exact H | apply String.eqb_refl].
Qed.

Lemma passes_polls_again i (r : exn + Object) :
  passes i r = true <-> polls_again i r.
Proof.
  unfold passes, polls_again. split.
  - destruct r as [e|o]; [discriminate|].
    destruct (object_state o) as [s|] eqn:Hs; [|discriminate].
    intros Hp. exists o, s. split; [reflexivity|]. split; [exact Hs|].
    destruct (str_in s unresolved_states) eqn:Hu; split.
    + intros Hin. apply str_in_In in Hin.
      apply resolved_not_unresolved in Hin. congruence.
    + intros _. now apply Z.leb_le.
    + intros Hin. apply str_in_In in Hin.
      apply negb_true_iff in Hp. unfold resolved_states in Hp. congruence.
    + intros Hin. apply str_in_In in Hin.
      unfold unresolved_states in Hu. congruence.
  - intros (o & s & -> & -> & Hnot & Hsleep).
    destruct (str_in s unresolved_states) eqn:Hu.
    + apply Z.leb_le, Hsleep. now apply str_in_In.
    + apply negb_true_iff. destruct (str_in s resolved_states) eqn:Hr;
        [|reflexivity].
      exfalso. apply Hnot. now apply str_in_In.
Qed.

Lemma times_out_at_strikes w i t o m :
  times_out_at (clock w) i t (clock w (now_count w)) (S (now_count w))
               (get_count w) o m = true
  <-> timeout_strikes w i t o m.
Proof.
  unfold times_out_at, timeout_strikes, in_time, passes_all.
  rewrite !andb_true_iff, !forallb_forall, negb_true_iff, Qltb_ge.
  split.
  - intros [[[Hin Hp] Hd] Hlate]. split; [|split].
    + intros j Hj. assert (Hjin : In j (seq 0 m)) by (apply in_seq; lia).
      split; [apply Qltb_lt, Hin, Hjin | apply passes_polls_again, Hp, Hjin].
    + destruct (snapshot m (get_count w) o) as [e|o_m]; [discriminate|eauto].
    + exact Hlate.
  - intros (Hbefore & [o_m Hd] & Hlate). rewrite Hd.
    repeat split; try assumption; intros j Hj; apply in_seq in Hj;
      destruct (Hbefore j) as [Hlt Hpa]; try lia.
    + now apply Qltb_lt.
    + now apply passes_polls_again.
Qed.

(** C2 (as amended). [wait] raises its [TimeoutError] exactly when a timeout
    was given and one of the tests of the loop finds the elapsed time at or
    above it, every earlier test having found it below and having been
    followed by a turn that saw a state that is not resolved and polled
    again.  The elapsed time of the [j]-th test is the [j]-th reading of the
    clock after the reading that set [started], minus [started].  Nothing is
    asked of the state of the operation in hand at the failing test: the test
    comes before the look at the state, so that operation may be resolved.
    With [timeout_seconds=None], [wait] never raises [TimeoutError], whatever
    the fuel. *)
Theorem wait_raises_TimeoutError_iff self o w i timeout :
  nth_error (heap w) self = Some o ->
  ((exists fuel msg w',
       wait fuel self i timeout w = Raised (TimeoutError msg) w')
   <-> (exists t m, timeout = Some t /\ timeout_strikes w i t o m))
  /\ (forall t m,
         timeout = Some t ->
         timeout_strikes w i t o m ->
         forall fuel, (m < fuel)%nat ->
           exists w',
             wait fuel self i timeout w
             = Raised (TimeoutError
                         ("Waiting for operation took longer than "
                            ++ str_int t ++ " seconds.")%string) w')
  /\ (timeout = None ->
      forall fuel msg w',
        wait fuel self i timeout w <> Raised (TimeoutError msg) w').
Proof.
  intros H.
  assert (Hto : forall fuel msg w',
             wait fuel self i timeout w = Raised (TimeoutError msg) w' ->
             exists t m, timeout = Some t /\ timeout_strikes w i t o m).
  { intros fuel msg w' Hrun. rewrite wait_unfold in Hrun.
    destruct (wait_loop_TimeoutError fuel i timeout _ self o (tick w) msg w'
                H Hrun) as (_ & t & m & Ht & Hm).
    exists t, m. split; [exact Ht|]. now apply times_out_at_strikes. }
  assert (Hfrom : forall t m,
             timeout = Some t ->
             timeout_strikes w i t o m ->
             forall fuel, (m < fuel)%nat ->
               exists w',
                 wait fuel self i timeout w
                 = Raised (TimeoutError
                             ("Waiting for operation took longer than "
                                ++ str_int t ++ " seconds.")%string) w').
  { intros t m -> Hm fuel Hfuel. rewrite wait_unfold.
    apply times_out_at_strikes in Hm.
    exact (times_out_at_raises m i t _ self o (tick w) fuel H Hm Hfuel). }
  split; [split|split].
  - intros (fuel & msg & w' & Hrun). eauto.
  - intros (t & m & Ht & Hm).
    destruct (Hfrom t m Ht Hm (S m)) as [w' Hrun]; [lia|]. eauto.
  - exact Hfrom.
  - intros -> fuel msg w' Hrun.
    destruct (Hto fuel msg w' Hrun) as (t & m & Ht & _). discriminate.
Qed.

(** C3 (as amended). When [wait] raises [TimeoutError], a timeout was given
    and the exception carries one message, made of the configured timeout
    alone; the elapsed time is not part of it. *)
Theorem wait_TimeoutError_carries_timeout fuel self o w i timeout msg w' :
  nth_error (heap w) self = Some o ->
  wait fuel self i timeout w = Raised (TimeoutError msg) w' ->
  exists t,
    timeout = Some t
    /\ msg = ("Waiting for operation took longer than "
                ++ str_int t ++ " seconds.")%string.
Proof.
  intros H Hrun. rewrite wait_unfold in Hrun.
  destruct (wait_loop_TimeoutError fuel i timeout _ self o (tick w) msg w' H Hrun)
    as (-> & t & m & -> & _).
  now exists t.
Qed.

(** ** C9 and C5 *)

Lemma nonpositive_timeout_fails_test (t : Z) (a b : Q) :
  t <= 0 -> (a <= b)%Q -> Qltb (b - a)%Q (inject_Z t) = false.
Proof.
  intros Ht Hab. unfold Qltb. apply negb_false_iff, Qle_bool_iff.
  assert (inject_Z t <= 0)%Q by (unfold Qle; cbn; lia).
  lra.
Qed.

(** C9. With a timeout that is zero or negative, and a clock that has not
    been set back between the first two readings, [wait] raises
    [TimeoutError] at the first test, whatever the operation and its state:
    the only calls made are the two readings of the clock; no sleep, no
    request, no new object. *)
Theorem wait_nonpositive_timeout_raises_at_once self w i t :
  t <= 0 ->
  (clock w (now_count w) <= clock w (S (now_count w)))%Q ->
  forall fuel,
    wait (S fuel) self i (Some t) w
    = Raised (TimeoutError (timeout_message (Some t))) (tick (tick w))
    /\ log (tick (tick w)) = log w
    /\ get_count (tick (tick w)) = get_count w
    /\ heap (tick (tick w)) = heap w.
Proof.
  intros Ht Hclk fuel. split; [|now cbn].
  rewrite wait_unfold. cbn [wait_loop]. rewrite wait_test_eq.
  unfold elapsed. cbn [Nat.add tick now_count clock].
  now rewrite (nonpositive_timeout_fails_test t _ _ Ht Hclk).
Qed.

(** C5 (as amended). On a receiver whose state is resolved, [wait] with no
    timeout, or with a timeout that the elapsed time of the first test is
    below, returns the receiver itself at the first turn of the loop: no
    sleep, no request, no new object.  What it returns is not fetched again:
    its state is the state that the receiver held before the call, whatever
    the server would report to a poll. *)
Theorem wait_resolved_receiver_returns_at_once self o s w i timeout :
  nth_error (heap w) self = Some o ->
  object_state o = Some s ->
  In s ["CANCELED"; "SUCCEEDED"; "FAILED"]%string ->
  (forall t, timeout = Some t ->
     (elapsed (clock w) (clock w (now_count w)) (S (now_count w)) 0
      < inject_Z t)%Q) ->
  forall fuel,
    let w' := tested timeout (tick w) in
    wait (S fuel) self i timeout w = Returned self w'
    /\ log w' = log w
    /\ get_count w' = get_count w
    /\ heap w' = heap w
    /\ state self w = (inr s, w)
    /\ state self w' = (inr s, w').
Proof.
  intros H Hs Hin Ht fuel w'.
  assert (Hr : str_in s resolved_states = true) by now apply str_in_In.
  assert (Hw : nth_error (heap w') self = Some o)
    by (unfold w'; now rewrite heap_tested).
  split.
  - rewrite wait_unfold.
    apply (wait_loop_resolved fuel i timeout _ self o s (tick w) H Hs Hr).
    destruct timeout as [t|]; [|reflexivity].
    apply Qltb_lt. exact (Ht t eq_refl).
  - unfold w'. rewrite log_tested, get_count_tested, heap_tested.
    repeat split; try reflexivity.
    + now rewrite (state_found _ _ _ H), Hs.
    + fold w'. now rewrite (state_found _ _ _ Hw), Hs.
Qed.

(** ** C4 *)

Lemma forallb_seq_last (f : nat -> bool) n :
  forallb f (seq 0 (S n)) = forallb f (seq 0 n) && f n.
Proof. rewrite seq_S, forallb_app. cbn. now rewrite andb_true_r. Qed.

(** C4 (as amended). On a state outside the five names the loop does not
    sleep, and it polls at once.  As long as the polls keep delivering such
    states the loop keeps running: when the receiver and the first [n]
    snapshots polled all have a state outside the five names, [wait] with
    [timeout_seconds=None] is still running after [n] turns, on the [n]-th
    snapshot, having made exactly [n] requests and no sleep. *)
Theorem wait_unlisted_state_polls_without_sleeping n self o w i :
  nth_error (heap w) self = Some o ->
  all_unlisted (S n) (get_count w) o = true ->
  exists op_n o_n w_n,
    wait n self i None w = Running op_n w_n
    /\ snapshot n (get_count w) o = inr o_n
    /\ nth_error (heap w_n) op_n = Some o_n
    /\ log w_n = log w ++ wait_trace i n (get_count w) o
    /\ filter is_sleep (wait_trace i n (get_count w) o) = []
    /\ length (filter is_get (wait_trace i n (get_count w) o)) = n.
Proof.
  intros H Hall. unfold all_unlisted in Hall.
  rewrite forallb_seq_last in Hall.
  apply andb_true_iff in Hall. destruct Hall as [Hall Hlast].
  destruct (snapshot n (get_count w) o) as [e|o_n] eqn:Hs; [discriminate|].
  assert (Hp : passes_all i n (get_count (tick w)) o = true).
  { revert Hall. apply forallb_seq_impl. intros j. apply unlisted_passes. }
  destruct (wait_loop_prefix n 0 i None (clock w (now_count w))
              self o o_n (tick w) H Hp)
    as (op_n & w_n & Hrun & Hop & Hlog & _);
    [discriminate | exact Hs |].
  rewrite Nat.add_0_r in Hrun. cbn [wait_loop] in Hrun.
  exists op_n, o_n, w_n. rewrite wait_unfold, Hrun.
  repeat split; try easy.
  - exact (wait_trace_unlisted i n _ _ _ Hs Hall).
  - exact (wait_trace_gets i n _ _ _ Hs).
Qed.

(** ** C6 *)

Lemma observable_found w self o :
  nth_error (heap w) self = Some o ->
  observable self w =
    (inr (proto_type (data o)), inr (proto_description (data o)),
     inr (proto_status (data o)),
     match object_state o with
     | Some s => inr s
     | None => inl (no_name_error (status_state (proto_status (data o))))
     end,
     inr (api_path o)).
Proof.
  intros H.
  unfold observable, type, description, status, get_api_path, bind.
  now rewrite (state_found _ _ _ H), (load_found _ _ _ H).
Qed.

Lemma poll_frame w self o l x :
  nth_error (heap w) self = Some o ->
  nth_error (heap w) l = Some x ->
  nth_error (heap (snd (poll self w))) l = Some x.
Proof.
  intros H Hl. rewrite (poll_found _ _ _ H).
  destruct (poll_object _ _) as [e|o']; [exact Hl|].
  cbn [snd polled]. now apply store_old.
Qed.

Lemma wait_loop_frame fuel :
  forall i t started op o w l x,
    nth_error (heap w) op = Some o ->
    nth_error (heap w) l = Some x ->
    nth_error (heap (world_of (wait_loop fuel i t started op w))) l = Some x.
Proof.
  induction fuel as [|fuel IH]; intros i t started op o w l x H Hl;
    [exact Hl|].
  rewrite (wait_loop_S _ _ _ _ _ _ _ H).
  assert (Hrec : forall o' w1,
             heap w1 = heap w ->
             nth_error
               (heap (world_of (wait_loop fuel i t started (length (heap w))
                                          (polled o o' w1)))) l = Some x).
  { intros o' w1 Eh. apply (IH _ _ _ _ o').
    - rewrite <- Eh. apply polled_new.
    - apply store_old. cbn. now rewrite Eh. }
  destruct (match t with Some _ => _ | None => _ end);
    [|cbn; now rewrite heap_tested].
  destruct (object_state o) as [s|]; [|cbn; now rewrite heap_tested].
  destruct (str_in s unresolved_states).
  - destruct (i <? 0); [cbn; now rewrite heap_tested|].
    destruct (poll_object _ _) as [e|o'].
    + cbn. now rewrite heap_tested.
    + apply Hrec. cbn. apply heap_tested.
  - destruct (str_in s resolved_states); [cbn; now rewrite heap_tested|].
    destruct (poll_object _ _) as [e|o'].
    + cbn. now rewrite heap_tested.
    + apply Hrec. apply heap_tested.
Qed.

(** C6. Neither [poll] nor [wait] changes the receiver, whatever the server
    answers and however the call ends (return, exception, or still running):
    every object that exists before the call is the same object after it, so
    the [type], [description], [status], [state] and [api_path] read from the
    receiver are the same before and after.  What [poll] returns is a
    reference to a new object, never the receiver. *)
Theorem poll_and_wait_leave_receiver_unchanged self o w :
  nth_error (heap w) self = Some o ->
  (observable self (snd (poll self w)) = observable self w
   /\ forall r, fst (poll self w) = inr r ->
                r <> self /\ nth_error (heap w) r = None)
  /\ (forall fuel i t,
        observable self (world_of (wait fuel self i t w)) = observable self w)
  /\ (forall l x,
        nth_error (heap w) l = Some x ->
        nth_error (heap (snd (poll self w))) l = Some x
        /\ forall fuel i t,
             nth_error (heap (world_of (wait fuel self i t w))) l = Some x).
Proof.
  intros H.
  assert (Hwait : forall fuel i t l x,
             nth_error (heap w) l = Some x ->
             nth_error (heap (world_of (wait fuel self i t w))) l = Some x).
  { intros fuel i t l x Hl. rewrite wait_unfold.
    now apply (wait_loop_frame fuel i t _ self o (tick w)). }
  split; [split|split].
  - rewrite (observable_found _ _ _ (poll_frame _ _ _ _ _ H H)).
    now rewrite (observable_found _ _ _ H).
  - intros r Hr. rewrite (poll_found _ _ _ H) in Hr.
    destruct (poll_object _ _); [discriminate|].
    injection Hr as <-.
    assert (Hfresh : nth_error (heap w) (length (heap w)) = None)
      by (apply nth_error_None; lia).
    split; [congruence | exact Hfresh].
  - intros fuel i t.
    rewrite (observable_found _ _ _ (Hwait fuel i t _ _ H)).
    now rewrite (observable_found _ _ _ H).
  - intros l x Hl. split.
    + now apply (poll_frame _ _ o).
    + intros fuel i t. now apply Hwait.
Qed.

(** ** C7, C8, C10 *)

(** C7. [succeeded] answers [True] exactly when the state is [SUCCEEDED];
    it answers [False] on each of [PENDING], [RUNNING], [CANCELED] and
    [FAILED]. *)
Theorem succeeded_iff_state_SUCCEEDED self w s w' :
  state self w = (inr s, w') ->
  (succeeded self w = (inr true, w') <-> s = "SUCCEEDED"%string)
  /\ (In s ["PENDING"; "RUNNING"; "CANCELED"; "FAILED"]%string ->
      succeeded self w = (inr false, w')).
Proof.
  intros H. unfold succeeded, bind, ret. rewrite H. split.
  - split.
    + intros [= E]. now apply String.eqb_eq.
    + intros ->. reflexivity.
  - intros [<-|[<-|[<-|[<-|[]]]]]; reflexivity.
Qed.

(** C8. With [asynchronous] true, [apply_options] returns the receiver and
    leaves the world as it is: no reading of the clock, no sleep, no request.
    With [asynchronous] false it is [wait] on the receiver with the options
    as keywords, a keyword left out taking the default of [wait]. *)
Theorem apply_options_returns_self_or_waits fuel self options w :
  apply_options fuel self true options w = Returned self w
  /\ apply_options fuel self false options w = wait_kw fuel self options w
  /\ wait_kw fuel self options w
     = wait fuel self
         (match opt_poll_interval_seconds options with
          | Some i => i
          | None => 3
          end)
         (match opt_timeout_seconds options with
          | Some t => t
          | None => None
          end)
         w.
Proof. repeat split. Qed.

(** C10. [poll] hands [from_json] the client of the receiver and the body of
    the response, and [None] for the path.  The stored [api_path] of the
    receiver serves to send the request and nothing else: the object behind
    the reference that [poll] returns is the one that the decoding builds
    from the client and the body with no path given. *)
Theorem poll_does_not_forward_api_path self o w :
  nth_error (heap w) self = Some o ->
  poll self w
  = bind (http_get_json (client o) (api_path o))
         (fun op_json => from_json (client o) op_json None) w
  /\ (forall body,
        client_get (client o) (get_count w) (api_path o) = inr body ->
        poll self w
        = match BaseResource_from_json (client o) body None with
          | inr o' =>
              (inr (length (heap w)), store o' (record_get (api_path o) w))
          | inl e => (inl (DecodeError e), record_get (api_path o) w)
          end)
  /\ (forall r w',
        poll self w = (inr r, w') ->
        exists body o',
          client_get (client o) (get_count w) (api_path o) = inr body
          /\ BaseResource_from_json (client o) body None = inr o'
          /\ nth_error (heap w') r = Some o').
Proof.
  intros H. split; [|split].
  - unfold poll at 1, bind at 1. now rewrite (load_found _ _ _ H).
  - intros body Hb. rewrite (poll_found _ _ _ H). unfold poll_object.
    rewrite Hb. now destruct (BaseResource_from_json _ _ _).
  - intros r w' Hp. rewrite (poll_found _ _ _ H) in Hp.
    unfold poll_object in Hp.
    destruct (client_get _ _ _) as [e|body]; [discriminate|].
    destruct (BaseResource_from_json _ _ _) as [e|o'] eqn:Hd; [discriminate|].
    injection Hp as <- <-. exists body, o'.
    split; [reflexivity|]. split; [exact Hd|].
    exact (store_new (record_get (api_path o) w) o').
Qed.

End OperationFacts.

(** * Examples on the concrete server *)

(** The example of the specification: the states [PENDING], [PENDING],
    [RUNNING], [SUCCEEDED] with a poll interval of 0 give three polls and a
    returned state of [SUCCEEDED]. *)
Lemma wait_returns_first_resolved_witness :
  exists r w',
    wait 4 0%nat 0 None pending_world = Returned r w'
    /\ state r w' = (inr "SUCCEEDED"%string, w')
    /\ log w' = [EvSleep 0; EvGet (Some "jobs/1"%string);
                 EvSleep 0; EvGet (Some "operations/1"%string);
                 EvSleep 0; EvGet (Some "operations/1"%string)].
Proof.
  destruct (wait_returns_first_resolved
              (collab := demo_collab) 3 0%nat
              (demo_object (scripted [0; 1; 3] 3) 0)
              (demo_object_at "operations/1" (scripted [0; 1; 3] 3) 3)
              "SUCCEEDED" pending_world 0)
    with (fuel := 4%nat)
    as (r & w' & Hrun & _ & Hstate & Hlog & _);
    [reflexivity | lia | reflexivity | reflexivity | reflexivity
    | reflexivity | lia |].
  exists r, w'. repeat split; assumption.
Defined.

(** A timeout of 2 seconds under a clock that advances by 1 each reading,
    on an operation that stays [PENDING]: the second test finds 2 seconds
    elapsed. *)
Lemma wait_raises_TimeoutError_iff_witness :
  exists w',
    wait 2 0%nat 0 (Some 2) (stuck_world (steady_clock 1))
    = Raised (TimeoutError
                "Waiting for operation took longer than 2 seconds.") w'.
Proof.
  apply (proj1 (proj2 (wait_raises_TimeoutError_iff
                         (collab := demo_collab) 0%nat
                         (demo_object (scripted [] 0) 0)
                         (stuck_world (steady_clock 1)) 0 (Some 2) eq_refl))
               2 1%nat eq_refl); [|lia].
  split; [|split].
  - intros j Hj. assert (j = 0%nat) as -> by lia. split.
    + unfold Qlt. cbn. lia.
    + exists (demo_object (scripted [] 0) 0), "PENDING"%string.
      repeat split.
      * cbn. intuition discriminate.
      * intros _. lia.
  - eexists. reflexivity.
  - unfold Qle. cbn. lia.
Defined.

(** A [PENDING] receiver, a timeout of 2 seconds, a clock that advances by 1
    each reading, a server that answers [SUCCEEDED] to the first poll: the
    first test finds 1 second elapsed, the turn polls and obtains the
    resolved operation, the second test finds 2 seconds elapsed and [wait]
    raises [TimeoutError], the operation in hand being [SUCCEEDED].  The
    timeout did not strike before a resolved state was obtained. *)
Lemma TimeoutError_with_resolved_operation_in_hand :
  (exists w',
      wait 2 0%nat 0 (Some 2) resolving_world
      = Raised (TimeoutError
                  "Waiting for operation took longer than 2 seconds.") w'
      /\ fst (state 1%nat w') = inr "SUCCEEDED"%string)
  /\ ~ (exists t m,
          Some 2 = Some t
          /\ strikes_unresolved resolving_world 0 t
                                (demo_object (scripted [] 3) 0) m).
Proof.
  split.
  - eexists. split; reflexivity.
  - intros (t & m & [= <-] & (Hbefore & _ & Hlate)
            & (o_m & s & Hs & Hst & Hnot)).
    destruct m as [|[|m]].
    + unfold Qle in Hlate. cbn in Hlate. lia.
    + cbn in Hs. injection Hs as <-. cbn in Hst. injection Hst as <-.
      apply Hnot. cbn. auto.
    + destruct (Hbefore 1%nat ltac:(lia)) as (_ & o1 & s1 & E & Es & Hn & _).
      cbn in E. injection E as <-. cbn in Es. injection Es as <-.
      apply Hn. cbn. auto.
Qed.

Lemma wait_TimeoutError_carries_timeout_witness :
  exists t,
    Some 2 = Some t
    /\ "Waiting for operation took longer than 2 seconds."%string
       = ("Waiting for operation took longer than "
            ++ str_int t ++ " seconds.")%string.
Proof.
  eapply (wait_TimeoutError_carries_timeout
            (collab := demo_collab) 2 0%nat
            (demo_object (scripted [] 0) 0)
            (stuck_world (steady_clock 1)) 0 (Some 2));
    reflexivity.
Defined.

(** The same call under two clocks: 5 seconds elapsed in one run, 7 in the
    other, and one and the same exception.  No reading of the exception can
    give the elapsed time of both. *)
Lemma TimeoutError_does_not_carry_elapsed :
  ~ exists elapsed_of : exn -> Q,
      forall (clk : nat -> Q) (e : exn) (w' : World demo_body Z),
        wait 1 0%nat 3 (Some 3) (stuck_world clk) = Raised e w' ->
        (elapsed_of e == clk 1%nat - clk 0%nat)%Q.
Proof.
  intros [elapsed_of H].
  pose proof (H (steady_clock 5) _ _ eq_refl) as H5.
  pose proof (H (steady_clock 7) _ _ eq_refl) as H7.
  cbn in H5, H7. rewrite H5 in H7. discriminate H7.
Qed.

(** A server that stays in the sixth state: three turns, three requests. *)
Lemma wait_unlisted_state_polls_without_sleeping_witness :
  exists op w',
    wait 3 0%nat 3 None unknown_world = Running op w'
    /\ log w' = [EvGet (Some "jobs/1"%string);
                 EvGet (Some "operations/1"%string);
                 EvGet (Some "operations/1"%string)].
Proof.
  destruct (wait_unlisted_state_polls_without_sleeping
              (collab := demo_collab) 3 0%nat
              (demo_object (scripted [] 5) 5) unknown_world 3)
    as (op & o_n & w' & Hrun & _ & _ & Hlog & _);
    [reflexivity | reflexivity |].
  exists op, w'. split; assumption.
Defined.

(** A receiver in the sixth state, outside the five names: [wait] with no
    timeout sends a request at once and, the server answering [SUCCEEDED],
    returns.  It neither loops for ever nor refrains from polling. *)
Lemma unlisted_state_does_not_spin_silently :
  fst (state 0%nat unknown_then_succeeded_world) = inr "UNKNOWN"%string
  /\ str_in "UNKNOWN" (unresolved_states ++ resolved_states) = false
  /\ (exists w',
        wait 2 0%nat 3 None unknown_then_succeeded_world = Returned 1%nat w'
        /\ log w' = [EvGet (Some "jobs/1"%string)])
  /\ ~ (forall fuel,
          exists op w',
            wait fuel 0%nat 3 None unknown_then_succeeded_world
            = Running op w'
            /\ log w' = log unknown_then_succeeded_world).
Proof.
  split; [reflexivity|]. split; [reflexivity|]. split.
  - eexists. split; reflexivity.
  - intros H. destruct (H 2%nat) as (op & w' & Hrun & _). discriminate Hrun.
Qed.

(** A receiver that is [FAILED] from the start, a timeout of 10 seconds:
    [wait] returns it at once, and [succeeded] is false on it. *)
Lemma wait_resolved_receiver_returns_at_once_witness :
  wait 1 0%nat 3 (Some 10) failed_world
  = Returned 0%nat (tick (tick failed_world))
  /\ log (tick (tick failed_world)) = []
  /\ succeeded 0%nat (tick (tick failed_world))
     = (inr false, tick (tick failed_world)).
Proof.
  assert (Hin : In "FAILED"%string ["CANCELED"; "SUCCEEDED"; "FAILED"]%string)
    by (cbn; auto).
  assert (Htest : forall t, Some 10 = Some t ->
            (elapsed (clock failed_world)
                     (clock failed_world (now_count failed_world))
                     (S (now_count failed_world)) 0
             < inject_Z t)%Q)
    by (intros t [= <-]; unfold Qlt; cbn; lia).
  destruct (wait_resolved_receiver_returns_at_once
              (collab := demo_collab) 0%nat
              (demo_object (scripted [] 4) 4) "FAILED" failed_world 3
              (Some 10) eq_refl eq_refl Hin Htest 0%nat)
    as (Hrun & Hlog & _).
  split; [exact Hrun|]. split; [exact Hlog|]. reflexivity.
Defined.

(** Two receivers on which the sentence fails.  The first is [SUCCEEDED]
    from the start and [wait] is given a timeout of 0 seconds: it does not
    return the receiver, it raises [TimeoutError].  The second reads [FAILED]
    while the server reports [RUNNING]: [wait] returns the receiver, whose
    state is [FAILED], and a poll made at once reports [RUNNING]. *)
Lemma resolved_receiver_raises_or_differs_from_poll :
  (fst (state 0%nat succeeded_world) = inr "SUCCEEDED"%string
   /\ (forall fuel,
         wait (S fuel) 0%nat 3 (Some 0) succeeded_world
         = Raised (TimeoutError
                     "Waiting for operation took longer than 0 seconds.")
                  (tick (tick succeeded_world)))
   /\ ~ (exists fuel r w',
           wait fuel 0%nat 3 (Some 0) succeeded_world = Returned r w'))
  /\ (fst (state 0%nat failed_but_running_world) = inr "FAILED"%string
      /\ exists w' r w'',
           wait 1 0%nat 3 None failed_but_running_world = Returned 0%nat w'
           /\ fst (state 0%nat w') = inr "FAILED"%string
           /\ poll 0%nat w' = (inr r, w'')
           /\ fst (state r w'') = inr "RUNNING"%string).
Proof.
  split.
  - split; [reflexivity|]. split; [reflexivity|].
    intros (fuel & r & w' & H). destruct fuel; discriminate H.
  - split; [reflexivity|]. do 3 eexists. repeat split.
Qed.

Lemma wait_nonpositive_timeout_raises_at_once_witness :
  wait 1 0%nat 3 (Some 0) succeeded_world
  = Raised (TimeoutError "Waiting for operation took longer than 0 seconds.")
           (tick (tick succeeded_world))
  /\ log (tick (tick succeeded_world)) = []
  /\ get_count (tick (tick succeeded_world)) = 0%nat.
Proof.
  destruct (wait_nonpositive_timeout_raises_at_once
              (collab := demo_collab) 0%nat succeeded_world 3 0)
    with (fuel := 0%nat) as (Hrun & Hlog & Hget & _).
  - lia.
  - unfold Qle. cbn. lia.
  - split; [exact Hrun|]. split; assumption.
Defined.

(** The server has moved on to [SUCCEEDED]; the receiver still reads
    [PENDING] after [poll] and after [wait]. *)
Lemma poll_and_wait_leave_receiver_unchanged_witness :
  fst (state 0%nat (snd (poll 0%nat unknown_then_succeeded_world)))
  = fst (state 0%nat unknown_then_succeeded_world)
  /\ observable 0%nat
       (world_of (wait 5 0%nat 3 None unknown_then_succeeded_world))
     = observable 0%nat unknown_then_succeeded_world.
Proof.
  destruct (poll_and_wait_leave_receiver_unchanged
              (collab := demo_collab) 0%nat
              (demo_object (scripted [] 3) 5) unknown_then_succeeded_world
              eq_refl)
    as ((Hpoll & _) & Hwait & _).
  split; [|apply Hwait].
  exact (f_equal (fun x => snd (fst x)) Hpoll).
Defined.

Lemma succeeded_iff_state_SUCCEEDED_witness :
  succeeded 0%nat succeeded_world = (inr true, succeeded_world)
  <-> "SUCCEEDED"%string = "SUCCEEDED"%string.
Proof.
  exact (proj1 (succeeded_iff_state_SUCCEEDED
                  (collab := demo_collab) 0%nat succeeded_world
                  "SUCCEEDED" succeeded_world eq_refl)).
Defined.

Lemma poll_does_not_forward_api_path_witness :
  poll 0%nat pending_world
  = bind (http_get_json (scripted [0; 1; 3] 3) (Some "jobs/1"%string))
         (fun op_json => from_json (scripted [0; 1; 3] 3) op_json None)
         pending_world.
Proof.
  exact (proj1 (poll_does_not_forward_api_path
                  (collab := demo_collab) 0%nat
                  (demo_object (scripted [0; 1; 3] 3) 0) pending_world
                  eq_refl)).
Defined.

(** The path of the object that [poll] returns is the one the decoding finds
    in the body, not the one the receiver was fetched with. *)
Example poll_result_has_path_of_body :
  exists r w',
    poll 0%nat pending_world = (inr r, w')
    /\ fst (get_api_path 0%nat w') = inr (Some "jobs/1"%string)
    /\ fst (get_api_path r w') = inr (Some "operations/1"%string).
Proof. do 2 eexists. repeat split. Qed.

(** * Further properties of the methods *)

Section OperationMoreFacts.

Context {Json StatusProto : Type} {collab : Collaborators Json StatusProto}.

Local Abbreviation World := (World Json StatusProto).
Local Abbreviation Object := (Object Json StatusProto).
Local Abbreviation outcome := (outcome Json StatusProto).

Implicit Types (w : World) (o : Object) (self op : Operation).

(** ** What [wait] returns *)

Lemma wait_loop_returned fuel :
  forall i t started op o w r w',
    nth_error (heap w) op = Some o ->
    wait_loop fuel i t started op w = Returned r w' ->
    exists o_r s,
      nth_error (heap w') r = Some o_r
      /\ object_state o_r = Some s
      /\ str_in s resolved_states = true
      /\ ((r = op /\ heap w' = heap w /\ log w' = log w
           /\ get_count w' = get_count w)
          \/ ((length (heap w) <= r)%nat /\ (get_count w < get_count w')%nat)).
Proof.
  induction fuel as [|fuel IH]; intros i t started op o w r w' H Hrun;
    [discriminate|].
  rewrite (wait_loop_S _ _ _ _ _ _ _ H) in Hrun.
  assert (Hrec : forall o' w1,
             heap w1 = heap w -> get_count w1 = get_count w ->
             wait_loop fuel i t started (length (heap w)) (polled o o' w1)
             = Returned r w' ->
             exists o_r s,
               nth_error (heap w') r = Some o_r
               /\ object_state o_r = Some s
               /\ str_in s resolved_states = true
               /\ ((r = op /\ heap w' = heap w /\ log w' = log w
                    /\ get_count w' = get_count w)
                   \/ ((length (heap w) <= r)%nat
                       /\ (get_count w < get_count w')%nat))).
  { intros o' w1 Eh Eg Hrec.
    destruct (IH i t started (length (heap w)) o' (polled o o' w1) r w')
      as (o_r & s & Hr & Hs & Hres & Hcase); [|exact Hrec|].
    - rewrite <- Eh. apply polled_new.
    - exists o_r, s. repeat (split; [assumption|]). right.
      cbn in Hcase. rewrite Eh, Eg, length_app in Hcase. cbn in Hcase.
      destruct Hcase as [(-> & _ & _ & ->)|[Hl Hg]]; lia. }
  destruct (match t with Some _ => _ | None => _ end); [|discriminate].
  destruct (object_state o) as [s|] eqn:Hs; [|discriminate].
  destruct (str_in s unresolved_states).
  - destruct (i <? 0); [discriminate|].
    destruct (poll_object _ _) as [e|o']; [discriminate|].
    apply (Hrec o' (record_sleep i (tested t w)));
      [cbn; apply heap_tested | cbn; apply get_count_tested | exact Hrun].
  - destruct (str_in s resolved_states) eqn:Hres.
    + injection Hrun as <- <-. exists o, s.
      rewrite heap_tested, log_tested, get_count_tested. auto 10.
    + destruct (poll_object _ _) as [e|o']; [discriminate|].
      apply (Hrec o' (tested t w));
        [apply heap_tested | apply get_count_tested | exact Hrun].
Qed.

(** X1. Whatever the timeout and the poll interval, what [wait] returns is
    an operation whose state is resolved: [CANCELED], [SUCCEEDED] or
    [FAILED]. *)
Theorem wait_returns_only_resolved fuel self o w i t r w' :
  nth_error (heap w) self = Some o ->
  wait fuel self i t w = Returned r w' ->
  exists s,
    state r w' = (inr s, w')
    /\ In s ["CANCELED"; "SUCCEEDED"; "FAILED"]%string.
Proof.
  intros H Hrun. rewrite wait_unfold in Hrun.
  destruct (wait_loop_returned fuel i t _ self o (tick w) r w' H Hrun)
    as (o_r & s & Hr & Hs & Hres & _).
  exists s. split; [now rewrite (state_found _ _ _ Hr), Hs|].
  unfold str_in in Hres. cbn in Hres. rewrite !orb_true_iff in Hres.
  destruct Hres as [E|[E|[E|E]]]; try discriminate;
    apply String.eqb_eq in E; subst; cbn; auto.
Qed.

(** X2. [wait] returns the receiver itself only when the receiver is
    resolved, and then it has sent no request, slept for no time and created
    no object; otherwise what it returns is an object that did not exist
    before the call, and at least one request was sent. *)
Theorem wait_returns_receiver_or_new_object fuel self o w i t r w' :
  nth_error (heap w) self = Some o ->
  wait fuel self i t w = Returned r w' ->
  (r = self
   /\ (exists s, object_state o = Some s /\ str_in s resolved_states = true)
   /\ heap w' = heap w /\ log w' = log w /\ get_count w' = get_count w)
  \/ (r <> self /\ nth_error (heap w) r = None
      /\ (get_count w < get_count w')%nat).
Proof.
  intros H Hrun. rewrite wait_unfold in Hrun.
  destruct (wait_loop_returned fuel i t _ self o (tick w) r w' H Hrun)
    as (o_r & s & Hr & Hs & Hres & [(-> & Eh & El & Eg)|[Hl Hg]]).
  - left. cbn in Eh, El, Eg. split; [reflexivity|]. split; [|auto].
    exists s. rewrite Eh, H in Hr. injection Hr as <-. auto.
  - right. cbn in Hl, Hg.
    assert (Hnone : nth_error (heap w) r = None) by now apply nth_error_None.
    split; [congruence|]. split; assumption.
Qed.

(** X3. Waiting again on what [wait] returned, with no timeout, returns the
    same reference at the first turn: no sleep, no request, no new object. *)
Theorem wait_again_returns_at_once fuel self o w i t r w' :
  nth_error (heap w) self = Some o ->
  wait fuel self i t w = Returned r w' ->
  forall fuel' i',
    wait (S fuel') r i' None w' = Returned r (tick w')
    /\ log (tick w') = log w'
    /\ get_count (tick w') = get_count w'
    /\ heap (tick w') = heap w'.
Proof.
  intros H Hrun fuel' i'. rewrite wait_unfold in Hrun.
  destruct (wait_loop_returned fuel i t _ self o (tick w) r w' H Hrun)
    as (o_r & s & Hr & Hs & Hres & _).
  split; [|now cbn]. rewrite wait_unfold.
  exact (wait_loop_resolved fuel' i' None _ r o_r s (tick w') Hr Hs Hres
                            eq_refl).
Qed.

(** ** Errors that leave [wait] *)

(** X4. [wait] does not catch what [poll] raises.  When the loop has gone
    through the receiver and the first [n] snapshots polled and the next
    request fails, in transport or in decoding, [wait] raises that very
    exception, for every fuel above [n], after [n + 1] requests; the
    exception is never a [TimeoutError]. *)
Theorem wait_propagates_poll_error n self o o_n e w i t :
  nth_error (heap w) self = Some o ->
  passes_all i (S n) (get_count w) o = true ->
  (forall t', t = Some t' ->
     in_time (clock w) t' (clock w (now_count w)) (S (now_count w)) (S n)
     = true) ->
  snapshot n (get_count w) o = inr o_n ->
  poll_object (n + get_count w) o_n = inl e ->
  forall fuel, (n < fuel)%nat ->
    exists w',
      wait fuel self i t w = Raised e w'
      /\ get_count w' = (S n + get_count w)%nat
      /\ forall msg, e <> TimeoutError msg.
Proof.
  intros H Hp Ht Hs He fuel Hfuel.
  unfold passes_all in Hp. rewrite forallb_seq_last, Hs in Hp.
  apply andb_true_iff in Hp. destruct Hp as [Hp Hpn].
  assert (Htn : forall t', t = Some t' ->
            in_time (clock w) t' (clock w (now_count w)) (S (now_count w)) n
            = true
            /\ Qltb (elapsed (clock w) (clock w (now_count w))
                             (S (now_count w)) n) (inject_Z t') = true).
  { intros t' E. specialize (Ht t' E). unfold in_time in Ht.
    rewrite forallb_seq_last in Ht. now apply andb_true_iff in Ht. }
  destruct (wait_loop_prefix n (fuel - n) i t (clock w (now_count w))
              self o o_n (tick w) H Hp)
    as (op_n & w_n & Hrun & Hop & _ & Hget & Hnow & Hclk & _);
    [intros t' E; now destruct (Htn t' E) | exact Hs |].
  replace (n + (fuel - n))%nat with fuel in Hrun by lia.
  destruct (fuel - n)%nat as [|fuel'] eqn:E; [lia|].
  rewrite wait_unfold, Hrun, (wait_loop_S _ _ _ _ _ _ _ Hop).
  assert (Htest : match t with
                  | Some t' =>
                      Qltb (elapsed (clock w_n) (clock w (now_count w))
                                    (now_count w_n) 0) (inject_Z t')
                  | None => true
                  end = true).
  { destruct t as [t'|]; [|reflexivity].
    destruct (Htn t' eq_refl) as [_ Hlast].
    rewrite Hclk, Hnow. exact Hlast. }
  rewrite Htest, Hget. cbn [tick get_count]. rewrite He.
  unfold passes in Hpn.
  destruct (object_state o_n) as [s|]; [|discriminate].
  destruct (str_in s unresolved_states).
  - apply Z.leb_le in Hpn. destruct (Z.ltb_spec i 0) as [Hi|Hi]; [lia|].
    eexists. split; [reflexivity|]. split.
    + cbn. rewrite get_count_tested, Hget. reflexivity.
    + exact (poll_object_error _ _ _ He).
  - apply negb_true_iff in Hpn. rewrite Hpn.
    eexists. split; [reflexivity|]. split.
    + cbn. rewrite get_count_tested, Hget. reflexivity.
    + exact (poll_object_error _ _ _ He).
Qed.

(** X9. With a negative poll interval, [wait] on a receiver that is
    [PENDING] or [RUNNING] fails in [sleep] at the first turn, provided the
    first test passes: it raises [ValueError] and has sent no request. *)
Theorem wait_negative_interval_raises self o s w i t :
  nth_error (heap w) self = Some o ->
  object_state o = Some s ->
  str_in s unresolved_states = true ->
  i < 0 ->
  (forall t', t = Some t' ->
     Qltb (elapsed (clock w) (clock w (now_count w)) (S (now_count w)) 0)
          (inject_Z t') = true) ->
  forall fuel,
    let w' := tested t (tick w) in
    wait (S fuel) self i t w
    = Raised (ValueError "sleep length must be non-negative") w'
    /\ log w' = log w /\ get_count w' = get_count w /\ heap w' = heap w.
Proof.
  intros H Hs Hu Hi Ht fuel w'. split.
  - assert (Htest : match t with
                    | Some t' =>
                        Qltb (elapsed (clock (tick w)) (clock w (now_count w))
                                      (now_count (tick w)) 0) (inject_Z t')
                    | None => true
                    end = true)
      by (destruct t as [t'|]; [exact (Ht t' eq_refl)|reflexivity]).
    rewrite wait_unfold, (wait_loop_S _ _ _ _ _ _ (tick w) H), Htest, Hs, Hu.
    destruct (Z.ltb_spec i 0) as [_|Hge]; [reflexivity|lia].
  - unfold w'. now rewrite log_tested, get_count_tested, heap_tested.
Qed.

(** X10. When the state code of the receiver has no name in the enumeration,
    the error of the reflection leaves [state], [succeeded] and [wait]
    alike.  [wait] raises it at the first turn, before any sleep or request,
    when it is given no timeout or a timeout that the elapsed time of the
    first test is below. *)
Theorem nameless_state_raises self o w timeout :
  nth_error (heap w) self = Some o ->
  object_state o = None ->
  (forall t, timeout = Some t ->
     (elapsed (clock w) (clock w (now_count w)) (S (now_count w)) 0
      < inject_Z t)%Q) ->
  let e := no_name_error (status_state (proto_status (data o))) in
  state self w = (inl e, w)
  /\ succeeded self w = (inl e, w)
  /\ forall fuel i,
       let w' := tested timeout (tick w) in
       wait (S fuel) self i timeout w = Raised e w'
       /\ log w' = log w /\ get_count w' = get_count w /\ heap w' = heap w.
Proof.
  intros H Hs Ht e.
  assert (Hst : state self w = (inl e, w))
    by (now rewrite (state_found _ _ _ H), Hs).
  split; [exact Hst|]. split.
  - unfold succeeded, bind. now rewrite Hst.
  - intros fuel i w'. split.
    + assert (Htest : match timeout with
                      | Some t' =>
                          Qltb (elapsed (clock (tick w))
                                        (clock w (now_count w))
                                        (now_count (tick w)) 0) (inject_Z t')
                      | None => true
                      end = true)
        by (destruct timeout as [t'|];
            [apply Qltb_lt; exact (Ht t' eq_refl) | reflexivity]).
      now rewrite wait_unfold, (wait_loop_S _ _ _ _ _ _ (tick w) H), Htest, Hs.
    + unfold w'. now rewrite log_tested, get_count_tested, heap_tested.
Qed.

(** ** Requests, sleeps and objects *)

Lemma wait_loop_paced fuel :
  forall i t started op o w,
    nth_error (heap w) op = Some o ->
    exists tr,
      log (world_of (wait_loop fuel i t started op w)) = log w ++ tr
      /\ well_paced i tr = true
      /\ get_count (world_of (wait_loop fuel i t started op w))
         = (length (filter is_get tr) + get_count w)%nat
      /\ (length (heap (world_of (wait_loop fuel i t started op w)))
          <= length (filter is_get tr) + length (heap w))%nat
      /\ (length (filter is_sleep tr) <= length (filter is_get tr))%nat.
Proof.
  induction fuel as [|fuel IH]; intros i t started op o w H.
  { exists []. cbn. rewrite app_nil_r. repeat split; lia. }
  assert (Hstop : forall w1,
             heap w1 = heap w -> get_count w1 = get_count w ->
             log w1 = log w ->
             exists tr,
               log w1 = log w ++ tr /\ well_paced i tr = true
               /\ get_count w1 = (length (filter is_get tr) + get_count w)%nat
               /\ (length (heap w1)
                   <= length (filter is_get tr) + length (heap w))%nat
               /\ (length (filter is_sleep tr)
                   <= length (filter is_get tr))%nat).
  { intros w1 Eh Eg El. exists []. cbn. rewrite app_nil_r, Eh.
    repeat split; auto. }
  assert (Hfail : forall w1 pre,
             pre = [] \/ pre = [EvSleep i] ->
             heap w1 = heap w -> get_count w1 = get_count w ->
             log w1 = log w ++ pre ->
             exists tr,
               log (record_get (api_path o) w1) = log w ++ tr
               /\ well_paced i tr = true
               /\ get_count (record_get (api_path o) w1)
                  = (length (filter is_get tr) + get_count w)%nat
               /\ (length (heap (record_get (api_path o) w1))
                   <= length (filter is_get tr) + length (heap w))%nat
               /\ (length (filter is_sleep tr)
                   <= length (filter is_get tr))%nat).
  { intros w1 pre Hpre Eh Eg El. exists (pre ++ [EvGet (api_path o)]).
    cbn [record_get log get_count heap]. rewrite El, Eg, Eh, <- app_assoc.
    destruct Hpre as [-> | ->]; cbn; rewrite ?Z.eqb_refl;
      repeat split; lia. }
  assert (Hrec : forall o' w1 pre,
             pre = [] \/ pre = [EvSleep i] ->
             heap w1 = heap w -> get_count w1 = get_count w ->
             log w1 = log w ++ pre ->
             exists tr,
               log (world_of (wait_loop fuel i t started (length (heap w))
                                        (polled o o' w1)))
               = log w ++ tr
               /\ well_paced i tr = true
               /\ get_count (world_of (wait_loop fuel i t started
                                                 (length (heap w))
                                                 (polled o o' w1)))
                  = (length (filter is_get tr) + get_count w)%nat
               /\ (length (heap (world_of (wait_loop fuel i t started
                                                     (length (heap w))
                                                     (polled o o' w1))))
                   <= length (filter is_get tr) + length (heap w))%nat
               /\ (length (filter is_sleep tr)
                   <= length (filter is_get tr))%nat).
  { intros o' w1 pre Hpre Eh Eg El.
    destruct (IH i t started (length (heap w)) o' (polled o o' w1))
      as (tr & Hlog & Hpaced & Hget & Hheap & Hsl).
    { rewrite <- Eh. apply polled_new. }
    exists (pre ++ EvGet (api_path o) :: tr).
    rewrite Hlog, Hget. cbn [polled store record_get log get_count heap] in *.
    rewrite El, Eg, <- app_assoc. rewrite Eh, length_app in Hheap.
    cbn in Hheap.
    destruct Hpre as [-> | ->]; cbn; rewrite ?Z.eqb_refl, ?Hpaced;
      repeat split; first [lia | now rewrite <- ?app_assoc]. }
  rewrite (wait_loop_S _ _ _ _ _ _ _ H).
  destruct (match t with Some _ => _ | None => _ end);
    [|apply Hstop; [apply heap_tested|apply get_count_tested|apply log_tested]].
  destruct (object_state o) as [s|];
    [|apply Hstop; [apply heap_tested|apply get_count_tested|apply log_tested]].
  destruct (str_in s unresolved_states).
  - destruct (i <? 0);
      [apply Hstop; [apply heap_tested|apply get_count_tested|apply log_tested]|].
    destruct (poll_object _ _) as [e|o'].
    + apply (Hfail (record_sleep i (tested t w)) [EvSleep i]); auto; cbn;
        [apply heap_tested | apply get_count_tested | now rewrite log_tested].
    + apply (Hrec o' (record_sleep i (tested t w)) [EvSleep i]); auto; cbn;
        [apply heap_tested | apply get_count_tested | now rewrite log_tested].
  - destruct (str_in s resolved_states);
      [apply Hstop; [apply heap_tested|apply get_count_tested|apply log_tested]|].
    destruct (poll_object _ _) as [e|o'].
    + apply (Hfail (tested t w) []); auto;
        [apply heap_tested | apply get_count_tested
        | now rewrite log_tested, app_nil_r].
    + apply (Hrec o' (tested t w) []); auto;
        [apply heap_tested | apply get_count_tested
        | now rewrite log_tested, app_nil_r].
Qed.

(** X5. However a call of [wait] stands (returned, raised or still running),
    what it has added to the log is a sequence of turns: each turn is a
    request, or a sleep of exactly [poll_interval_seconds] followed at once
    by a request.  So it never sleeps twice in a row, never sleeps more often
    than it polls, and every object it has created comes from a request of
    its own. *)
Theorem wait_log_is_well_paced fuel self o w i t :
  nth_error (heap w) self = Some o ->
  exists tr,
    log (world_of (wait fuel self i t w)) = log w ++ tr
    /\ well_paced i tr = true
    /\ get_count (world_of (wait fuel self i t w))
       = (length (filter is_get tr) + get_count w)%nat
    /\ (length (heap (world_of (wait fuel self i t w)))
        <= length (filter is_get tr) + length (heap w))%nat
    /\ (length (filter is_sleep tr) <= length (filter is_get tr))%nat.
Proof.
  intros H. rewrite wait_unfold.
  exact (wait_loop_paced fuel i t _ self o (tick w) H).
Qed.

(** ** Running for ever, and stopping *)

Lemma wait_loop_running_in_time fuel :
  forall i t started op o w op' w',
    nth_error (heap w) op = Some o ->
    wait_loop fuel i (Some t) started op w = Running op' w' ->
    in_time (clock w) t started (now_count w) fuel = true.
Proof.
  induction fuel as [|fuel IH]; intros i t started op o w op' w' H Hrun;
    [reflexivity|].
  rewrite (wait_loop_S _ _ _ _ _ _ _ H) in Hrun. rewrite in_time_S.
  destruct (Qltb (elapsed (clock w) started (now_count w) 0) (inject_Z t));
    [|discriminate].
  assert (Hrec : forall o' w1,
             heap w1 = heap w -> clock w1 = clock w ->
             now_count w1 = S (now_count w) ->
             wait_loop fuel i (Some t) started (length (heap w))
                       (polled o o' w1) = Running op' w' ->
             in_time (clock w) t started (S (now_count w)) fuel = true).
  { intros o' w1 Eh Ec En Hrec.
    rewrite <- Ec, <- En.
    apply (IH i t started (length (heap w)) o' (polled o o' w1) op' w');
      [|exact Hrec].
    rewrite <- Eh. apply polled_new. }
  cbn [andb].
  destruct (object_state o) as [s|]; [|discriminate].
  destruct (str_in s unresolved_states).
  - destruct (i <? 0); [discriminate|].
    destruct (poll_object _ _) as [e|o']; [discriminate|].
    now apply (Hrec o' (record_sleep i (tick w))).
  - destruct (str_in s resolved_states); [discriminate|].
    destruct (poll_object _ _) as [e|o']; [discriminate|].
    now apply (Hrec o' (tick w)).
Qed.

Lemma clock_advances (clk : nat -> Q) (d : Q) (c : nat) :
  (forall k, (c <= k)%nat -> (clk k + d <= clk (S k))%Q) ->
  forall j, (clk c + inject_Z (Z.of_nat j) * d <= clk (j + c)%nat)%Q.
Proof.
  intros Hadv j. induction j as [|j IH].
  - change (inject_Z (Z.of_nat 0)) with 0%Q. cbn [Nat.add]. lra.
  - rewrite Nat2Z.inj_succ. unfold Z.succ. rewrite inject_Z_plus.
    cbn [Nat.add]. specialize (Hadv (j + c)%nat ltac:(lia)).
    change (inject_Z 1) with 1%Q. lra.
Qed.

(** X6. A timeout bounds the wait.  When every reading of the clock is at
    least [d] later than the one before, [wait] with the timeout [t] is no
    longer running once it has been given more than [j] turns, for any [j]
    with [(j + 1) * d >= t]: it has returned or it has raised. *)
Theorem wait_with_timeout_stops fuel self o w i t d j :
  nth_error (heap w) self = Some o ->
  (forall k, (now_count w <= k)%nat -> (clock w k + d <= clock w (S k))%Q) ->
  (inject_Z t <= inject_Z (Z.of_nat (S j)) * d)%Q ->
  (j < fuel)%nat ->
  (exists r w', wait fuel self i (Some t) w = Returned r w')
  \/ (exists e w', wait fuel self i (Some t) w = Raised e w').
Proof.
  intros H Hadv Hj Hfuel.
  destruct (wait fuel self i (Some t) w) as [r w'|e w'|op' w'] eqn:Hrun;
    [left; eauto | right; eauto | exfalso].
  rewrite wait_unfold in Hrun.
  pose proof (wait_loop_running_in_time fuel i t _ self o (tick w) op' w'
                H Hrun) as Hin.
  unfold in_time in Hin.
  assert (Hjin : In j (seq 0 fuel)) by (apply in_seq; lia).
  pose proof (proj1 (forallb_forall _ _) Hin j Hjin) as Hlt.
  cbn [tick clock now_count] in Hlt.
  unfold Qltb in Hlt. apply negb_true_iff in Hlt.
  assert (Hle : Qle_bool (inject_Z t)
                  (elapsed (clock w) (clock w (now_count w))
                           (S (now_count w)) j) = true).
  { apply Qle_bool_iff. unfold elapsed. rewrite Nat.add_succ_r.
    pose proof (clock_advances (clock w) d (now_count w) Hadv (S j)) as Hc.
    cbn [Nat.add] in Hc. lra. }
  congruence.
Qed.

(** X7. Without a timeout, [wait] runs for as long as the server does not
    resolve the operation.  When the receiver and the first [n] snapshots
    polled all have a state that is not resolved, and [sleep] accepts the
    poll interval, [wait] with [timeout_seconds=None] is still running after
    [n] turns, on the [n]-th snapshot, having sent [n] requests. *)
Theorem wait_without_timeout_keeps_running n self o w i :
  nth_error (heap w) self = Some o ->
  0 <= i ->
  none_resolved (S n) (get_count w) o = true ->
  exists op_n o_n w_n,
    wait n self i None w = Running op_n w_n
    /\ snapshot n (get_count w) o = inr o_n
    /\ nth_error (heap w_n) op_n = Some o_n
    /\ get_count w_n = (n + get_count w)%nat
    /\ log w_n = log w ++ wait_trace i n (get_count w) o.
Proof.
  intros H Hi Hall. unfold none_resolved in Hall.
  rewrite forallb_seq_last in Hall.
  apply andb_true_iff in Hall. destruct Hall as [Hall Hlast].
  destruct (snapshot n (get_count w) o) as [e|o_n] eqn:Hs; [discriminate|].
  assert (Hp : passes_all i n (get_count (tick w)) o = true).
  { revert Hall. apply forallb_seq_impl. intros j.
    now apply not_resolved_passes. }
  destruct (wait_loop_prefix n 0 i None (clock w (now_count w))
              self o o_n (tick w) H Hp)
    as (op_n & w_n & Hrun & Hop & Hlog & Hget & _);
    [discriminate | exact Hs |].
  rewrite Nat.add_0_r in Hrun. cbn [wait_loop] in Hrun.
  exists op_n, o_n, w_n. rewrite wait_unfold, Hrun. auto 10.
Qed.

(** ** The methods together *)

(** X11. In synchronous mode, what [apply_options] returns is resolved, and
    [succeeded] on it answers without raising: [True] when the state is
    [SUCCEEDED], [False] when it is [CANCELED] or [FAILED]. *)
Theorem apply_options_sync_then_succeeded fuel self o options w r w' :
  nth_error (heap w) self = Some o ->
  apply_options fuel self false options w = Returned r w' ->
  (state r w' = (inr "SUCCEEDED"%string, w')
   /\ succeeded r w' = (inr true, w'))
  \/ (exists s, (s = "CANCELED" \/ s = "FAILED")%string
                /\ state r w' = (inr s, w')
                /\ succeeded r w' = (inr false, w')).
Proof.
  intros H Hrun. unfold apply_options, wait_kw in Hrun.
  rewrite wait_unfold in Hrun.
  destruct (wait_loop_returned fuel _ _ _ self o (tick w) r w' H Hrun)
    as (o_r & s & Hr & Hs & Hres & _).
  assert (Hst : state r w' = (inr s, w'))
    by (now rewrite (state_found _ _ _ Hr), Hs).
  unfold succeeded, bind, ret. rewrite Hst.
  unfold str_in in Hres. cbn in Hres. rewrite !orb_true_iff in Hres.
  destruct Hres as [E|[E|[E|E]]]; try discriminate;
    apply String.eqb_eq in E; subst s.
  - right. exists "CANCELED"%string. auto.
  - left. auto.
  - right. exists "FAILED"%string. auto.
Qed.

End OperationMoreFacts.

(** ** Examples for the further properties *)

Lemma wait_returns_only_resolved_witness :
  exists s,
    state 3%nat waited_world = (inr s, waited_world)
    /\ In s ["CANCELED"; "SUCCEEDED"; "FAILED"]%string.
Proof.
  apply (wait_returns_only_resolved
           (collab := demo_collab) 4 0%nat
           (demo_object (scripted [0; 1; 3] 3) 0) pending_world 0 None
           3%nat waited_world);
    reflexivity.
Defined.

Lemma wait_returns_receiver_or_new_object_witness :
  (0%nat = 0%nat
   /\ (exists s,
         object_state (demo_object (scripted [] 4) 4) = Some s
         /\ str_in s resolved_states = true)
   /\ heap (tick failed_world) = heap failed_world
   /\ log (tick failed_world) = log failed_world
   /\ get_count (tick failed_world) = get_count failed_world)
  \/ (0%nat <> 0%nat /\ nth_error (heap failed_world) 0%nat = None
      /\ (get_count failed_world < get_count (tick failed_world))%nat).
Proof.
  apply (wait_returns_receiver_or_new_object
           (collab := demo_collab) 1 0%nat
           (demo_object (scripted [] 4) 4) failed_world 3 None
           0%nat (tick failed_world));
    reflexivity.
Defined.

Lemma wait_again_returns_at_once_witness :
  wait 1 3%nat 3 None waited_world = Returned 3%nat (tick waited_world)
  /\ log (tick waited_world) = log waited_world
  /\ get_count (tick waited_world) = get_count waited_world
  /\ heap (tick waited_world) = heap waited_world.
Proof.
  apply (wait_again_returns_at_once
           (collab := demo_collab) 4 0%nat
           (demo_object (scripted [0; 1; 3] 3) 0) pending_world 0 None
           3%nat waited_world);
    reflexivity.
Defined.

(** The server answers [RUNNING] once and then fails: [wait] raises the
    failure of the second request. *)
Lemma wait_propagates_poll_error_witness :
  exists w',
    wait 2 0%nat 0 None failing_world
    = Raised (TransportError "connection reset") w'
    /\ get_count w' = 2%nat
    /\ forall msg, TransportError "connection reset" <> TimeoutError msg.
Proof.
  apply (wait_propagates_poll_error
           (collab := demo_collab) 1 0%nat
           (demo_object (failing_after [1]) 0)
           (demo_object_at "operations/1" (failing_after [1]) 1)
           (TransportError "connection reset") failing_world 0 None);
    try reflexivity; [discriminate | lia].
Defined.

Lemma wait_log_is_well_paced_witness :
  exists tr,
    log waited_world = log pending_world ++ tr
    /\ well_paced 0 tr = true
    /\ get_count waited_world
       = (length (filter is_get tr) + get_count pending_world)%nat
    /\ (length (heap waited_world)
        <= length (filter is_get tr) + length (heap pending_world))%nat
    /\ (length (filter is_sleep tr) <= length (filter is_get tr))%nat.
Proof.
  exact (wait_log_is_well_paced
           (collab := demo_collab) 4 0%nat
           (demo_object (scripted [0; 1; 3] 3) 0) pending_world 0 None
           eq_refl).
Defined.

Lemma steady_clock_advances (k : nat) :
  (steady_clock 1 k + 1 <= steady_clock 1 (S k))%Q.
Proof.
  unfold steady_clock. rewrite Nat2Z.inj_succ. unfold Z.succ.
  rewrite inject_Z_plus. change (inject_Z 1) with 1%Q. lra.
Qed.

(** A clock that advances by 1 second a reading and a timeout of 2 seconds:
    [wait] has stopped within two turns. *)
Lemma wait_with_timeout_stops_witness :
  (exists r w',
      wait 2 0%nat 0 (Some 2) (stuck_world (steady_clock 1)) = Returned r w')
  \/ (exists e w',
        wait 2 0%nat 0 (Some 2) (stuck_world (steady_clock 1)) = Raised e w').
Proof.
  apply (wait_with_timeout_stops
           (collab := demo_collab) 2 0%nat
           (demo_object (scripted [] 0) 0) (stuck_world (steady_clock 1))
           0 2 1%Q 1%nat).
  - reflexivity.
  - intros k _. apply steady_clock_advances.
  - unfold Qle. cbn. lia.
  - lia.
Defined.

Lemma wait_without_timeout_keeps_running_witness :
  exists op_n o_n w_n,
    wait 3 0%nat 0 None (stuck_world (steady_clock 1)) = Running op_n w_n
    /\ snapshot 3 0 (demo_object (scripted [] 0) 0) = inr o_n
    /\ nth_error (heap w_n) op_n = Some o_n
    /\ get_count w_n = 3%nat
    /\ log w_n
       = [] ++ wait_trace 0 3 0 (demo_object (scripted [] 0) 0).
Proof.
  apply (wait_without_timeout_keeps_running
           (collab := demo_collab) 3 0%nat
           (demo_object (scripted [] 0) 0) (stuck_world (steady_clock 1)) 0);
    [reflexivity | lia | reflexivity].
Defined.

Lemma wait_negative_interval_raises_witness :
  wait 1 0%nat (-1) None (stuck_world (steady_clock 1))
  = Raised (ValueError "sleep length must be non-negative")
           (tick (stuck_world (steady_clock 1))).
Proof.
  assert (Htest : forall t', @None Z = Some t' ->
            Qltb (elapsed (steady_clock 1) (steady_clock 1 0%nat) 1 0)
                 (inject_Z t') = true) by discriminate.
  exact (proj1 (wait_negative_interval_raises
                  (collab := demo_collab) 0%nat
                  (demo_object (scripted [] 0) 0) "PENDING"
                  (stuck_world (steady_clock 1)) (-1) None
                  eq_refl eq_refl eq_refl eq_refl Htest 0%nat)).
Defined.

(** A state code without a name and a timeout of 10 seconds: [state] and
    [wait] raise the same [ValueError], [wait] having sent no request. *)
Lemma nameless_state_raises_witness :
  state 0%nat nameless_world
  = (inl (ValueError "Enum OperationState has no name defined for value 9"),
     nameless_world)
  /\ wait 1 0%nat 3 (Some 10) nameless_world
     = Raised (ValueError
                 "Enum OperationState has no name defined for value 9")
              (tick (tick nameless_world))
  /\ log (tick (tick nameless_world)) = [].
Proof.
  assert (Htest : forall t, Some 10 = Some t ->
            (elapsed (clock nameless_world)
                     (clock nameless_world (now_count nameless_world))
                     (S (now_count nameless_world)) 0
             < inject_Z t)%Q)
    by (intros t [= <-]; unfold Qlt; cbn; lia).
  destruct (nameless_state_raises
              (collab := demo_collab) 0%nat
              (demo_object (scripted [] 3) 9) nameless_world (Some 10)
              eq_refl eq_refl Htest)
    as (Hstate & _ & Hwait).
  destruct (Hwait 0%nat 3) as (Hrun & Hlog & _).
  split; [exact Hstate|]. split; [exact Hrun | exact Hlog].
Defined.

Lemma apply_options_sync_then_succeeded_witness :
  (state 3%nat waited_world = (inr "SUCCEEDED"%string, waited_world)
   /\ succeeded 3%nat waited_world = (inr true, waited_world))
  \/ (exists s, (s = "CANCELED" \/ s = "FAILED")%string
                /\ state 3%nat waited_world = (inr s, waited_world)
                /\ succeeded 3%nat waited_world = (inr false, waited_world)).
Proof.
  apply (apply_options_sync_then_succeeded
           (collab := demo_collab) 4 0%nat
           (demo_object (scripted [0; 1; 3] 3) 0) quick_options pending_world
           3%nat waited_world);
    reflexivity.
Defined.
